(** * RouteLLM routers: a shallow embedding of [routellm/routers/routers.py]

    The file follows the Python module top to bottom: the float values the
    routers compute with, the effects (exceptions and mutable state), the
    abstract [Router] class with [route], and then the router classes
    one by one.  The theorems come after the definitions. *)

From Stdlib Require Import Reals Lra Lia ZArith.
From Stdlib Require SpecFloat.
From stdpp Require Import base option list gmap strings.

(** ** Floating-point values

    A Python/numpy float is modelled by an extended real: a finite value
    is an exact real number, and the three special values follow the IEEE
    rules that numpy applies ([x / 0], [inf - inf], comparisons with [nan]).
    Rounding, overflow of finite values and the sign of zero are not part of
    this model: it gives the formulas that the code computes.  Where a
    property depends on rounding or on the range of a float, it is stated
    over the operations of the section on machine arithmetic below. *)
Module PyFloat.

Inductive float : Type :=
  | Fin (r : R)
  | PInf
  | NInf
  | NaN.

Definition opp (a : float) : float :=
  match a with
  | Fin x => Fin (- x)
  | PInf => NInf
  | NInf => PInf
  | NaN => NaN
  end.

Definition add (a b : float) : float :=
  match a, b with
  | NaN, _ | _, NaN => NaN
  | Fin x, Fin y => Fin (x + y)
  | PInf, NInf | NInf, PInf => NaN
  | PInf, _ | _, PInf => PInf
  | NInf, _ | _, NInf => NInf
  end.

Definition sub (a b : float) : float := add a (opp b).

(** The infinity with the sign of [x], [nan] for [x = 0]. *)
Definition signed_inf (x : R) : float :=
  if Req_dec_T x 0 then NaN
  else if Rlt_dec 0 x then PInf else NInf.

Definition mul (a b : float) : float :=
  match a, b with
  | NaN, _ | _, NaN => NaN
  | Fin x, Fin y => Fin (x * y)
  | Fin x, PInf | PInf, Fin x => signed_inf x
  | Fin x, NInf | NInf, Fin x => signed_inf (- x)
  | PInf, PInf | NInf, NInf => PInf
  | PInf, NInf | NInf, PInf => NaN
  end.

(** numpy's true division: a zero divisor gives a signed infinity, or [nan]
    for [0 / 0], and never raises. *)
Definition div (a b : float) : float :=
  match a, b with
  | NaN, _ | _, NaN => NaN
  | Fin x, Fin y => if Req_dec_T y 0 then signed_inf x else Fin (x / y)
  | Fin _, (PInf | NInf) => Fin 0
  | PInf, Fin y => if Rlt_dec y 0 then NInf else PInf
  | NInf, Fin y => if Rlt_dec y 0 then PInf else NInf
  | (PInf | NInf), (PInf | NInf) => NaN
  end.

(** [np.exp]. *)
Definition exp (a : float) : float :=
  match a with
  | Fin x => Fin (Rtrigo_def.exp x)
  | PInf => PInf
  | NInf => Fin 0
  | NaN => NaN
  end.

(** [10 ** a]. *)
Definition pow10 (a : float) : float :=
  match a with
  | Fin x => Fin (Rpower 10 x)
  | PInf => PInf
  | NInf => Fin 0
  | NaN => NaN
  end.

(** [np.sqrt], as [np.linalg.norm] uses it. *)
Definition sqrt (a : float) : float :=
  match a with
  | Fin x => if Rlt_dec x 0 then NaN else Fin (R_sqrt.sqrt x)
  | PInf => PInf
  | NInf => NaN
  | NaN => NaN
  end.

(** [a >= b]: every comparison with [nan] is false. *)
Definition ge (a b : float) : bool :=
  match a, b with
  | NaN, _ | _, NaN => false
  | Fin x, Fin y => if Rle_dec y x then true else false
  | PInf, _ => true
  | _, NInf => true
  | _, _ => false
  end.

(** The larger of two values, as [np.max] folds it: [nan] wins. *)
Definition max2 (a b : float) : float :=
  match a, b with
  | NaN, _ | _, NaN => NaN
  | _, _ => if ge a b then a else b
  end.

Definition sum (l : list float) : float := foldr add (Fin 0) l.

End PyFloat.

Import PyFloat.

Declare Scope float_scope.
Delimit Scope float_scope with float.
Bind Scope float_scope with float.
Infix "+" := add : float_scope.
Infix "-" := sub : float_scope.
Infix "*" := mul : float_scope.
Infix "/" := div : float_scope.
Infix ">=?" := ge (at level 70) : float_scope.

(** ** Effects: exceptions and mutable state *)

Inductive exn : Type :=
  | FileNotFoundError (msg : string)
  | KeyError
  | ValueError
  | ExternalError (msg : string).

Inductive result (A : Type) : Type :=
  | Ok (a : A)
  | Raise (e : exn).
Arguments Ok {A} a.
Arguments Raise {A} e.

(** A computation over a mutable store [S] that may raise.  The store is
    returned in both cases: what was written before a [raise] stays. *)
Definition M (S A : Type) : Type := S → result A * S.

Definition ret {S A} (a : A) : M S A := λ s, (Ok a, s).
Definition raise {S A} (e : exn) : M S A := λ s, (Raise e, s).
Definition bind {S A B} (k : A → M S B) (m : M S A) : M S B :=
  λ s, match m s with
       | (Ok a, s') => k a s'
       | (Raise e, s') => (Raise e, s')
       end.
#[global] Instance M_ret {S} : MRet (M S) := @ret S.
#[global] Instance M_bind {S} : MBind (M S) := @bind S.
Definition gets {S A} (f : S → A) : M S A := λ s, (Ok (f s), s).

(** [try: m except FileNotFoundError: h]. *)
Definition except_FileNotFoundError {S A} (m : M S A) (h : M S A) : M S A :=
  λ s, match m s with
       | (Raise (FileNotFoundError _), s') => h s'
       | r => r
       end.

(** A computation on one component of a pair of stores. *)
Definition on_fst {S L A} (m : M S A) : M (S * L) A :=
  λ '(s, l), let '(r, s') := m s in (r, (s', l)).
Definition on_snd {S W A} (m : M W A) : M (S * W) A :=
  λ '(s, w), let '(r, w') := m w in (r, (s, w')).

(** The same effect with its calls recorded: the store gains the list of the
    arguments the function was called with, oldest first. *)
Definition counted {S A B} (f : A → M S B) : A → M (S * list A) B :=
  λ a '(s, log), let '(r, s') := f a s in (r, (s', log ++ [a])).

(** The files the constructors read: path to contents, and the paths that
    were opened, oldest first. *)
Record FS : Type := mkFS {
  files : gmap string string;
  opened : list string;
}.

Definition open_file (path : string) : M FS string :=
  λ w, let w' := mkFS (files w) (opened w ++ [path]) in
       match files w !! path with
       | Some contents => (Ok contents, w')
       | None => (Raise (FileNotFoundError ("No such file or directory: " +:+ path)), w')
       end.

(** ** [routellm.model_pair.ROUTED_PAIR] *)

Inductive routed : Type := strong | weak.

(** ** Classes and class attributes

    A class object carries its own attribute dictionary and its base class;
    reading an attribute looks in the class first and then in its bases. *)

Inductive pyclass : Type :=
  | ABC
  | ClassObj (name : string) (base : pyclass) (attrs : gmap string bool).

Fixpoint getattr (c : pyclass) (a : string) : option bool :=
  match c with
  | ABC => None
  | ClassObj _ base attrs =>
      match attrs !! a with
      | Some v => Some v
      | None => getattr base a
      end
  end.

Definition setattr (c : pyclass) (a : string) (v : bool) : pyclass :=
  match c with
  | ABC => ABC
  | ClassObj name base attrs => ClassObj name base (<[a := v]> attrs)
  end.

(** The decorator [no_parallel]. *)
Definition no_parallel (cls : pyclass) : pyclass :=
  setattr cls "NO_PARALLEL" true.

(** ** [class Router] *)

Module Router.

Definition cls : pyclass :=
  ClassObj "Router" ABC {["NO_PARALLEL" := false]}.

Section Methods.
Context {S : Type}.

(** The abstract method, supplied by each subclass. *)
Variable calculate_strong_win_rate : string → M S float.

Definition route (prompt : string) (threshold : float) : M S routed :=
  w ← calculate_strong_win_rate prompt;
  if (w >=? threshold)%float then mret strong else mret weak.

End Methods.

End Router.

(** ** numpy helpers *)

(** [np.max] of a one-dimensional array; an empty array raises. *)
Definition np_max {S} (a : list float) : M S float :=
  match a with
  | [] => raise ValueError
  | x :: a' => mret (foldl max2 x a')
  end.

(** [d[k]] on a dict or a pandas Series. *)
Definition getitem {S} `{Countable K} {V} (d : gmap K V) (k : K) : M S V :=
  match d !! k with
  | Some v => mret v
  | None => raise KeyError
  end.

(** [s.endswith(suffix)]. *)
Definition endswith (s suffix : string) : bool :=
  bool_decide
    (String.substring (String.length s - String.length suffix)
       (String.length suffix) s = suffix).

(** [s.lower()], on ASCII letters. *)
Definition ascii_lower (c : Ascii.ascii) : Ascii.ascii :=
  let n := Ascii.nat_of_ascii c in
  if (65 <=? n)%nat && (n <=? 90)%nat then Ascii.ascii_of_nat (n + 32) else c.

Fixpoint lower (s : string) : string :=
  match s with
  | EmptyString => EmptyString
  | String c s' => String (ascii_lower c) (lower s')
  end.

(** The slice [a[-n:]]. *)
Definition last_n {A} (n : nat) (a : list A) : list A :=
  drop (length a - n) a.

(** ** [class CausalLLMRouter] *)

Module CausalLLMRouter.

Definition cls : pyclass :=
  no_parallel (ClassObj "CausalLLMRouter" Router.cls ∅).

Section Methods.
Context {S messages : Type}.

(** [self.to_openai_messages] and [self.router_model], built by [__init__]
    from [routellm.routers.causal_llm], which is outside this module. *)
Variable to_openai_messages : list string → messages.
Variable router_model : gmap string messages → M S (gmap string float).

Definition calculate_strong_win_rate (prompt : string) : M S float :=
  let input := <["messages" := to_openai_messages [prompt]]> ∅ in
  output ← router_model input;
  match output !! "binary_prob" with
  | Some p => mret (Fin 1 - p)%float
  | None => raise KeyError
  end.

End Methods.

End CausalLLMRouter.

(** The constructor of [CausalLLMRouter] and the object it builds. *)
Module CausalLLMRouterObject.

Section Construction.
Context {raw_config config prompt_format classifier messages : Type}.

(** [RouterModelConfig], [load_prompt_format], [CausalLLMClassifier] and
    [to_openai_api_messages] of [routellm.routers.causal_llm]: the first
    three may read files and may fail. *)
Variable RouterModelConfig : raw_config → M FS config.
Variable model_id : config → string.
Variable load_prompt_format : string → M FS prompt_format.
Variable CausalLLMClassifier :
  config → string → Z → prompt_format → string → list string → bool →
  M FS classifier.
Variable to_openai_api_messages : string → string → list string → messages.

Record self : Type := mkSelf {
  router_model : classifier;
  to_openai_messages : list string → messages;
}.

Definition default_score_threshold : Z := 4.

Definition __init__ (model_config : raw_config) (model_checkpoint_path : string)
    (system_message classifier_message : string) (score_threshold : Z) : M FS self :=
  model_config ← RouterModelConfig model_config;
  prompt_format ← load_prompt_format (model_id model_config);
  router_model ←
    CausalLLMClassifier model_config model_checkpoint_path score_threshold
      prompt_format "messages" [] true;
  system_message ← open_file system_message;
  classifier_message ← open_file classifier_message;
  mret (mkSelf router_model
          (to_openai_api_messages system_message classifier_message)).

End Construction.

End CausalLLMRouterObject.

(** ** [class BERTRouter] *)

Module BERTRouter.

Definition cls : pyclass :=
  no_parallel (ClassObj "BERTRouter" Router.cls ∅).

Section Methods.
Context {S tokens : Type}.

(** [self.tokenizer] and [self.model] are pretrained handles; the model
    yields the logits of the single sequence of the batch,
    [outputs.logits.numpy()[0]]. *)
Variable tokenizer : string → M S tokens.
Variable model : tokens → M S (list float).

Definition calculate_strong_win_rate (prompt : string) : M S float :=
  inputs ← tokenizer prompt;
  logits ← model inputs;
  max_logit ← np_max logits;
  let exp_scores := map (λ x, exp (x - max_logit)%float) logits in
  let softmax_scores := map (λ x, x / sum exp_scores)%float exp_scores in
  let binary_prob := sum (last_n 2 softmax_scores) in
  mret (Fin 1 - binary_prob)%float.

End Methods.

End BERTRouter.

(** ** [class MatrixFactorizationRouter] *)

Module MatrixFactorizationRouter.

Definition cls : pyclass :=
  no_parallel (ClassObj "MatrixFactorizationRouter" Router.cls ∅).

Section Methods.
Context {S model_id : Type}.

(** [self.model.pred_win_rate] of [routellm.routers.matrix_factorization]. *)
Variable pred_win_rate : model_id → model_id → string → M S float.
Variables strong_model_id weak_model_id : model_id.

Definition calculate_strong_win_rate (prompt : string) : M S float :=
  winrate ← pred_win_rate strong_model_id weak_model_id prompt;
  mret winrate.

End Methods.

End MatrixFactorizationRouter.

(** The constructor of [MatrixFactorizationRouter] and the object it
    builds. *)
Module MatrixFactorizationRouterObject.

Section Construction.
Context {S model : Type}.

(** [torch.cuda.is_available()], [MFModel.from_pretrained(path, dim=...)],
    [model.eval().to(device)] and the table [MODEL_IDS] of
    [routellm.routers.matrix_factorization.model]. *)
Variable cuda_is_available : M S bool.
Variable from_pretrained : string → Z → M S model.
Variable eval_to : model → string → M S model.
Variable MODEL_IDS : gmap string Z.

Record self : Type := mkSelf {
  model_handle : model;
  strong_model_id : Z;
  weak_model_id : Z;
}.

Definition __init__ (checkpoint_path : string) (hidden_size : Z)
    (strong_model weak_model : string) : M S self :=
  cuda ← cuda_is_available;
  let device := if cuda : bool then "cuda" else "cpu" in
  model ← from_pretrained checkpoint_path hidden_size;
  model ← eval_to model device;
  strong_model_id ← getitem MODEL_IDS strong_model;
  weak_model_id ← getitem MODEL_IDS weak_model;
  mret (mkSelf model strong_model_id weak_model_id).

(** [self.model.pred_win_rate]. *)
Variable pred_win_rate : model → Z → Z → string → M S float.

(** [calculate_strong_win_rate] of a constructed router. *)
Definition calculate_strong_win_rate (o : self) (prompt : string) : M S float :=
  MatrixFactorizationRouter.calculate_strong_win_rate
    (pred_win_rate (model_handle o)) (strong_model_id o) (weak_model_id o) prompt.

End Construction.

End MatrixFactorizationRouterObject.

(** ** [class RandomRouter] *)

Module RandomRouter.

Definition cls : pyclass :=
  no_parallel (ClassObj "RandomRouter" Router.cls ∅).

Section Methods.
(** The store is the state of the interpreter's global generator. *)
Context {rng : Type}.

(** [random.random()]: the next value of the generator, in [0, 1), and the
    generator's new state. *)
Variable random_random : rng → R * rng.

(** [random.uniform(a, b)] is [a + (b - a) * random()]. *)
Definition random_uniform (a b : float) : M rng float :=
  λ g, let '(u, g') := random_random g in (Ok (a + (b - a) * Fin u)%float, g').

Definition calculate_strong_win_rate (prompt : string) : M rng float :=
  random_uniform (Fin 0) (Fin 1).

End Methods.

End RandomRouter.

(** ** [class SWRankingRouter] *)

(** A participant of a battle: a model name when the dataset is loaded, a
    tier number after [__init__] has relabelled it. *)
Inductive label : Type :=
  | LStr (s : string)
  | LInt (z : Z).

#[global] Instance label_eq_dec : EqDecision label.
Proof. solve_decision. Defined.

#[global] Instance label_countable : Countable label :=
  inj_countable'
    (λ l, match l with LStr s => inl s | LInt z => inr z end)
    (λ x, match x with inl s => LStr s | inr z => LInt z end)
    (λ l, match l with LStr _ | LInt _ => eq_refl end).

(** The battle dataset, column by column: the two participant columns this
    module rewrites, and the outcome column it passes on untouched. *)
Record DataFrame : Type := mkDataFrame {
  model_a : list label;
  model_b : list label;
  outcome : list string;
}.

Definition set_model_a (df : DataFrame) (col : list label) : DataFrame :=
  mkDataFrame col (model_b df) (outcome df).
Definition set_model_b (df : DataFrame) (col : list label) : DataFrame :=
  mkDataFrame (model_a df) col (outcome df).

(** [col.apply(f)]. *)
Definition apply {S A B} (f : A → M S B) (col : list A) : M S (list B) :=
  mapM f col.

Module SWRankingRouter.

Definition cls : pyclass :=
  ClassObj "SWRankingRouter" Router.cls ∅.

Record self : Type := mkSelf {
  strong_model : string;
  weak_model : string;
  arena_df : DataFrame;
  arena_conv_embedding : list (list float);
  embedding_model : string;
  model2tier : gmap label Z;
}.

Section Methods.

(** [routellm.routers.similarity_weighted.utils] is another module; its two
    functions are parameters here.  [compute_elo_mle_with_tie] fits a rating
    per participant from the battles and optional per-battle weights,
    [compute_tiers] maps rated participants to tier numbers; both are taken
    as functions of their arguments that leave the dataset they are given
    as it is. *)
Variable compute_elo_mle_with_tie :
  DataFrame → option (list float) → gmap label float.
Variable compute_tiers : gmap label float → Z → gmap label Z.

(** The decoders of [pd.read_json] (a JSON array, or one JSON value per line
    with [lines=True]) and of [np.load], applied to the contents of a file
    that exists. *)
Variable json_array_decode : string → DataFrame.
Variable json_lines_decode : string → DataFrame.
Variable npy_decode : string → list (list float).

(** The file name extensions that pandas takes for compressed files. *)
Definition extension_to_compression : list string :=
  [".tar"; ".tar.gz"; ".tar.bz2"; ".tar.xz"; ".gz"; ".bz2"; ".zip"; ".xz"; ".zst"].

(** Whether pandas takes a string that names no file for the path of a JSON
    file: its lower-case form ends in [.json], or in [.json] and one of the
    compression extensions. *)
Definition is_json_path (path : string) : bool :=
  existsb (λ ext, endswith (lower path) (".json" +:+ ext))
    (EmptyString :: extension_to_compression).

(** [pd.read_json(path, lines=lines)] of pandas 2.  A string that names a
    file is read and decoded.  A string that names no file is reported as a
    missing file only when it looks like the path of a JSON file; any other
    string is parsed as the JSON text itself, and a path is not JSON text:
    the parser raises [ValueError]. *)
Definition pd_read_json (path : string) (lines : bool) : M FS DataFrame :=
  λ w, let w' := mkFS (files w) (opened w ++ [path]) in
       match files w !! path with
       | Some contents =>
           (Ok (if lines then json_lines_decode contents
                else json_array_decode contents), w')
       | None =>
           if is_json_path path
           then (Raise (FileNotFoundError ("File " +:+ path +:+ " does not exist")), w')
           else (Raise ValueError, w')
       end.

Definition np_load (path : string) : M FS (list (list float)) :=
  contents ← open_file path;
  mret (npy_decode contents).

Definition __init__ (strong_model weak_model : string)
    (arena_df_path arena_embedding_path : string) (num_tiers : Z) : M FS self :=
  arena_df ←
    except_FileNotFoundError
      (if endswith arena_df_path ".json"
       then pd_read_json arena_df_path false
       else pd_read_json arena_df_path true)
      (raise (FileNotFoundError
                ("Expected data file not found at path: " +:+ arena_df_path)));
  arena_conv_embedding ←
    except_FileNotFoundError
      (np_load arena_embedding_path)
      (raise (FileNotFoundError
                ("Expected data file not found at path: " +:+ arena_embedding_path)));
  let embedding_model := "text-embedding-3-small" in
  let model_ratings := compute_elo_mle_with_tie arena_df None in
  let model2tier := compute_tiers model_ratings num_tiers in
  col_a ← apply (λ x, t ← getitem model2tier x; mret (LInt t)) (model_a arena_df);
  let arena_df := set_model_a arena_df col_a in
  col_b ← apply (λ x, t ← getitem model2tier x; mret (LInt t)) (model_b arena_df);
  let arena_df := set_model_b arena_df col_b in
  mret (mkSelf strong_model weak_model arena_df arena_conv_embedding
          embedding_model model2tier).

Definition get_weightings {S} (similarities : list float) : M S (list float) :=
  max_sim ← np_max similarities;
  mret (map (λ s, Fin 10 * pow10 (s / max_sim))%float similarities).

(** The store of a call: the router object and the state of the embedding
    service. *)
Context {W : Type}.

(** [sw_utils.OPENAI_CLIENT.embeddings.create(input, model).data[0].embedding]:
    a request to the embedding service, which may fail. *)
Variable embeddings_create : list string → string → M W (list float).

Definition attr {A} (f : self → A) : M (self * W) A := gets (λ st, f st.1).
Definition external {A} (m : M W A) : M (self * W) A := on_snd m.

(** [np.dot(a, b)] of two vectors. *)
Definition dot {S} (a b : list float) : M S float :=
  if bool_decide (length a = length b)
  then mret (sum (zip_with mul a b))
  else raise ValueError.

(** [np.linalg.norm] of a vector. *)
Definition norm (a : list float) : float :=
  sqrt (sum (map (λ x, x * x)%float a)).

Definition calculate_strong_win_rate (prompt : string) : M (self * W) float :=
  embedding_model ← attr embedding_model;
  prompt_emb ← external (embeddings_create [prompt] embedding_model);
  arena_conv_embedding ← attr arena_conv_embedding;
  dots ← mapM (λ row, dot row prompt_emb) arena_conv_embedding;
  let similarities :=
    zip_with div dots
      (map (λ n, n * norm prompt_emb)%float (map norm arena_conv_embedding)) in

  weightings ← get_weightings similarities;
  arena_df ← attr arena_df;
  let res := compute_elo_mle_with_tie arena_df (Some weightings) in

  model2tier ← attr model2tier;
  weak_model ← attr weak_model;
  weak_tier ← getitem model2tier (LStr weak_model);
  weak_score ← getitem res (LInt weak_tier);
  strong_model ← attr strong_model;
  strong_tier ← getitem model2tier (LStr strong_model);
  strong_score ← getitem res (LInt strong_tier);
  let weak_winrate :=
    (Fin 1 / (Fin 1 + pow10 ((strong_score - weak_score) / Fin 400)))%float in
  let strong_winrate := (Fin 1 - weak_winrate)%float in
  mret strong_winrate.

End Methods.

End SWRankingRouter.

(** ** The registry *)

Definition ROUTER_CLS : gmap string pyclass :=
  <["sw_ranking" := SWRankingRouter.cls]>
  (<["bert" := BERTRouter.cls]>
  (<["causal_llm" := CausalLLMRouter.cls]>
  (<["matrix_factorization" := MatrixFactorizationRouter.cls]>
  (<["random" := RandomRouter.cls]> ∅)))).

(** [ROUTER_CLS[name].NO_PARALLEL]. *)
Definition NO_PARALLEL (name : string) : option bool :=
  c ← ROUTER_CLS !! name; getattr c "NO_PARALLEL".

(** A dict kept in insertion order: [d[k] = v] overwrites the entry of [k] or
    appends a new one. *)
Fixpoint dict_set `{EqDecision K} {V} (d : list (K * V)) (k : K) (v : V)
    : list (K * V) :=
  match d with
  | [] => [(k, v)]
  | (k', v') :: d' =>
      if decide (k' = k) then (k, v) :: d' else (k', v') :: dict_set d' k v
  end.

Fixpoint dict_get `{EqDecision K} {V} (d : list (K * V)) (k : K) : option V :=
  match d with
  | [] => None
  | (k', v') :: d' => if decide (k' = k) then Some v' else dict_get d' k
  end.

(** A class object used as a dict key is hashed and compared by identity,
    not by what it holds.  The identity of a class is a number here: the
    classes of this module are numbered in the order of their [class]
    statements, and a class created anywhere else has a larger number,
    whatever its name, base and attributes. *)
Definition class_id : Type := nat.

Definition module_classes : list pyclass :=
  [ Router.cls; CausalLLMRouter.cls; BERTRouter.cls; SWRankingRouter.cls;
    MatrixFactorizationRouter.cls; RandomRouter.cls ].

Definition class_at (i : class_id) : option pyclass := module_classes !! i.

Definition id_Router : class_id := 0.
Definition id_CausalLLMRouter : class_id := 1.
Definition id_BERTRouter : class_id := 2.
Definition id_SWRankingRouter : class_id := 3.
Definition id_MatrixFactorizationRouter : class_id := 4.
Definition id_RandomRouter : class_id := 5.

(** [ROUTER_CLS.items()], in the order the source lists them, each class by
    its identity. *)
Definition ROUTER_CLS_items : list (string * class_id) :=
  [ ("random", id_RandomRouter);
    ("matrix_factorization", id_MatrixFactorizationRouter);
    ("causal_llm", id_CausalLLMRouter);
    ("bert", id_BERTRouter);
    ("sw_ranking", id_SWRankingRouter) ].

(** [{v: k for k, v in ROUTER_CLS.items()}]. *)
Definition NAME_TO_CLS : list (class_id * string) :=
  foldl (λ d '(k, v), dict_set d v k) [] ROUTER_CLS_items.

(** [Router.__str__], for an object whose class is [self_class]. *)
Definition __str__ {S} (self_class : class_id) : M S string :=
  match dict_get NAME_TO_CLS self_class with
  | Some name => mret name
  | None => raise KeyError
  end.

(** * Machine arithmetic

    [PyFloat] computes with exact reals.  What a float adds to that, the
    rounding of every result and the range, is modelled here: for float64
    by a rounding function that the operations apply to each result, for
    float32 by the IEEE operations themselves. *)

(** ** Rounded float64 operations

    A float64 operation returns its exact result rounded to a float:
    [rnd x] is the float that the real number [x] rounds to, a finite
    number or, when [x] is out of range, an infinity.  [10 ** x] is taken
    to be rounded in the same way.  On the special values the operations
    are those of [PyFloat]. *)
Module Rounded.

Section Ops.
Variable rnd : R → float.

Definition mul (a b : float) : float :=
  match a, b with
  | Fin x, Fin y => rnd (x * y)
  | _, _ => PyFloat.mul a b
  end.

Definition div (a b : float) : float :=
  match a, b with
  | Fin x, Fin y => if Req_dec_T y 0 then signed_inf x else rnd (x / y)
  | _, _ => PyFloat.div a b
  end.

Definition pow10 (a : float) : float :=
  match a with
  | Fin x => rnd (Rpower 10 x)
  | _ => PyFloat.pow10 a
  end.

(** [SWRankingRouter.get_weightings], every operation rounded. *)
Definition get_weightings {S} (similarities : list float) : M S (list float) :=
  max_sim ← np_max similarities;
  mret (map (λ s, mul (Fin 10) (pow10 (div s max_sim))) similarities).

End Ops.

End Rounded.

(** ** float32 operations

    The classifier of the BERT router returns float32 logits, and numpy
    keeps that type through the arithmetic of [calculate_strong_win_rate]:
    every operation there is an IEEE binary32 operation, rounded to nearest.
    The operations are those of the standard library's specification of
    IEEE arithmetic, at 24 bits of precision. *)
Module Binary32.

Definition prec : Z := 24.
Definition emax : Z := 128.
Definition float32 : Type := SpecFloat.spec_float.

(** The float32 nearest to [m * 2^e]. *)
Definition of_Z (m e : Z) : float32 :=
  SpecFloat.binary_normalize prec emax m e false.

Definition zero : float32 := SpecFloat.S754_zero false.
Definition one : float32 := of_Z 1 0.

Definition add : float32 → float32 → float32 := SpecFloat.SFadd prec emax.
Definition sub : float32 → float32 → float32 := SpecFloat.SFsub prec emax.
Definition div : float32 → float32 → float32 := SpecFloat.SFdiv prec emax.
Definition leb : float32 → float32 → bool := SpecFloat.SFleb.
Definition ltb : float32 → float32 → bool := SpecFloat.SFltb.

(** The larger of two values, as [np.max] folds it: [nan] wins. *)
Definition max2 (a b : float32) : float32 :=
  match a, b with
  | SpecFloat.S754_nan, _ | _, SpecFloat.S754_nan => SpecFloat.S754_nan
  | _, _ => if leb b a then a else b
  end.

Definition np_max {S} (a : list float32) : M S float32 :=
  match a with
  | [] => raise ValueError
  | x :: a' => mret (foldl max2 x a')
  end.

Section Methods.
Context {S tokens : Type}.

Variable tokenizer : string → M S tokens.
Variable model : tokens → M S (list float32).

(** [np.exp] on float32 is numpy's own routine; its result is close to the
    exact exponential but need not be the nearest float32. *)
Variable np_exp : float32 → float32.

(** [np.sum] adds fewer than eight elements one by one, from the left;
    eight elements or more are summed in blocks, by [pairwise_sum]. *)
Variable pairwise_sum : list float32 → float32.

Definition np_sum (a : list float32) : float32 :=
  if (length a <? 8)%nat then foldl add zero a else pairwise_sum a.

(** [BERTRouter.calculate_strong_win_rate] on float32 logits. *)
Definition calculate_strong_win_rate (prompt : string) : M S float32 :=
  inputs ← tokenizer prompt;
  logits ← model inputs;
  max_logit ← np_max logits;
  let exp_scores := map (λ x, np_exp (sub x max_logit)) logits in
  let softmax_scores := map (λ x, div x (np_sum exp_scores)) exp_scores in
  let binary_prob := np_sum (last_n 2 softmax_scores) in
  mret (sub one binary_prob).

End Methods.

End Binary32.

(** * Reference definitions

    The formulas of the specification over the reals, to compare the code
    with. *)

(** [weight(s) = 10 * 10^(s / max(similarities))]. *)
Definition weight (max_sim s : R) : R := (10 * Rpower 10 (s / max_sim))%R.

(** The sum of a list of reals. *)
Definition Rsum (l : list R) : R := foldr Rplus 0%R l.

(** The softmax of a vector of logits: [exp l_i / sum_j exp l_j]. *)
Definition softmax (logits : list R) : list R :=
  (λ x, Rtrigo_def.exp x / Rsum (Rtrigo_def.exp <$> logits))%R <$> logits.

(** A column after relabelling: every entry is the tier number that
    [model2tier] gives for the entry before. *)
Definition relabelled (model2tier : gmap label Z) (before after : list label) : Prop :=
  Forall2 (λ x y, ∃ t, model2tier !! x = Some t ∧ y = LInt t) before after.

(** The cosine similarity of two vectors. *)
Definition cosine (a b : list float) : float :=
  (sum (zip_with mul a b) / (SWRankingRouter.norm a * SWRankingRouter.norm b))%float.

(** The weights of the battles for a prompt embedding: the similarity of
    every stored embedding to it, turned into [10 * 10^(s / max)]. *)
Definition battle_weights (embeddings : list (list float)) (prompt_emb : list float)
    : list float :=
  let similarities := (λ row, cosine row prompt_emb) <$> embeddings in
  let max_sim := foldl max2 (default NaN (head similarities)) (tail similarities) in
  (λ s, Fin 10 * pow10 (s / max_sim))%float <$> similarities.

(** The Elo win probability of the strong side for two ratings:
    [1 - 1 / (1 + 10^((strong - weak) / 400))]. *)
Definition elo_strong_winrate (strong_rating weak_rating : R) : R :=
  (1 - 1 / (1 + Rpower 10 ((strong_rating - weak_rating) / 400)))%R.

(** [a <= b] on floats; [nan] is not comparable. *)
Definition float_le (a b : float) : Prop :=
  match a, b with
  | NaN, _ | _, NaN => False
  | NInf, _ | _, PInf => True
  | Fin x, Fin y => (x <= y)%R
  | _, _ => False
  end.

(** What rounding to nearest does on every float format: a real number
    rounds to a number or to an infinity, never to [nan]; a larger number
    does not round to a smaller float; zero is a float. *)
Record rounding (rnd : R → float) : Prop := {
  rnd_not_nan : ∀ x, rnd x ≠ NaN;
  rnd_mono : ∀ x y, (x <= y)%R → float_le (rnd x) (rnd y);
  rnd_zero : rnd 0%R = Fin 0;
}.

(** The range of float64: [2^1024] and everything above rounds to [inf],
    everything from zero to [2^-1075] rounds to zero, and the integers up
    to [2^53] are floats. *)
Record binary64_range (rnd : R → float) : Prop := {
  rnd_overflow : ∀ x, (2 ^ 1024 <= x)%R → rnd x = PInf;
  rnd_underflow : ∀ x, (0 <= x <= / 2 ^ 1075)%R → rnd x = Fin 0;
  rnd_integer : ∀ z : Z, (- 2 ^ 53 ≤ z ≤ 2 ^ 53)%Z → rnd (IZR z) = Fin (IZR z);
}.

(** A rounding with the range of float64 and no loss of precision inside
    it. *)
Definition range64 (x : R) : float :=
  if Rle_dec (2 ^ 1024)%R x then PInf
  else if Rle_dec x (- 2 ^ 1024)%R then NInf
  else if Rle_dec (Rabs x) (/ 2 ^ 1075)%R then Fin 0
  else Fin x.

(** The weight of a similarity [s] under the maximum [max_sim], as
    [get_weightings] computes it with rounding. *)
Definition rounded_weight (rnd : R → float) (max_sim s : R) : float :=
  Rounded.mul rnd (Fin 10)
    (Rounded.pow10 rnd (Rounded.div rnd (Fin s) (Fin max_sim))).

(** A computation on a pair of stores that leaves the first one as it
    found it, whether it returns or raises. *)
Definition keeps_fst {S W A} (m : M (S * W) A) : Prop :=
  ∀ o w, (m (o, w)).2.1 = o.

(** A caller that asks for one estimate per prompt, in order, and keeps the
    value or the exception of each call. *)
Fixpoint serve {S} (estimate : string → M S float) (prompts : list string) (st : S)
    : list (result float) * S :=
  match prompts with
  | [] => ([], st)
  | p :: ps =>
      let '(r, st') := estimate p st in
      let '(rs, st'') := serve estimate ps st' in
      (r :: rs, st'')
  end.

(** * Test data *)

(** A small linear congruential generator to run the random router on. *)
Definition lcg (g : Z) : R * Z :=
  ((IZR (g mod 8) / 8)%R, ((5 * g + 3) mod 8)%Z).

(** A tokenizer that passes the prompt on and a classifier with fixed
    logits. *)
Definition toy_tokenizer (prompt : string) : M unit string :=
  λ s, (Ok prompt, s).
Definition toy_classifier (inputs : string) : M unit (list float) :=
  λ s, (Ok [Fin 2; Fin 0; Fin 1], s).

(** A float32 classifier with the logits [-30, 5.25, 0], and an exponential
    that is right where the router needs it for these logits:
    [exp(0) = 1], and the float32 nearest to [exp(-5.25)] and to
    [exp(-35.25)]. *)
Definition toy_classifier32 (inputs : string) : M unit (list Binary32.float32) :=
  λ s, (Ok [Binary32.of_Z (-30) 0; Binary32.of_Z 21 (-2); Binary32.of_Z 0 0], s).
Definition toy_np_exp (x : Binary32.float32) : Binary32.float32 :=
  if SpecFloat.SFeqb x (Binary32.of_Z 0 0) then Binary32.one
  else if SpecFloat.SFeqb x (Binary32.of_Z (-21) (-2))
       then Binary32.of_Z 11268960 (-31)
       else Binary32.of_Z 9275540 (-74).

(** Two files, a dataset of two battles between two models, a fit that
    rates tier 0 at 1200 and tier 1 at 1000, and an embedding service that
    answers every prompt with the same unit vector. *)
Definition toy_files : FS :=
  mkFS (<["battles.json" := "[]"]> (<["embeddings.npy" := ""]> ∅)) [].
Definition toy_decode (contents : string) : DataFrame :=
  mkDataFrame [LStr "gpt4"; LStr "llama"] [LStr "llama"; LStr "gpt4"]
    ["model_a"; "tie"].
Definition toy_npy_decode (contents : string) : list (list float) :=
  [[Fin 1; Fin 0]; [Fin 0; Fin 1]].
Definition toy_elo (df : DataFrame) (sample_weight : option (list float))
    : gmap label float :=
  <[LInt 0 := Fin 1200]> (<[LInt 1 := Fin 1000]>
    (<[LStr "gpt4" := Fin 1200]> (<[LStr "llama" := Fin 1000]> ∅))).
Definition toy_tiers (ratings : gmap label float) (num_tiers : Z) : gmap label Z :=
  <[LStr "gpt4" := 0%Z]> (<[LStr "llama" := 1%Z]> ∅).
Definition toy_embed (input : list string) (model : string) : M unit (list float) :=
  λ w, (Ok [Fin 1; Fin 0], w).
Definition toy_router : SWRankingRouter.self :=
  SWRankingRouter.mkSelf "gpt4" "llama"
    (mkDataFrame [LInt 0; LInt 1] [LInt 1; LInt 0] ["model_a"; "tie"])
    [[Fin 1; Fin 0]; [Fin 0; Fin 1]] "text-embedding-3-small"
    (<[LStr "gpt4" := 0%Z]> (<[LStr "llama" := 1%Z]> ∅)).

(** A classifier configuration that is its own model id, a classifier that
    is its checkpoint path, templates in two files, and a classifier call
    that answers every request with probability 1/4. *)
Definition toy_templates : FS :=
  mkFS (<["system.txt" := "You are a judge."]> (<["classifier.txt" := "Score:"]> ∅)) [].
Definition toy_config (raw : string) : M FS string := mret raw.
Definition toy_model_id (config : string) : string := config.
Definition toy_prompt_format (model_id : string) : M FS string := mret model_id.
Definition toy_causal_classifier (config ckpt : string) (score_threshold : Z)
    (prompt_format prompt_field : string) (additional_fields : list string)
    (use_last_turn : bool) : M FS string := mret ckpt.
Definition toy_messages (system classifier : string) (prompts : list string)
    : list string := system :: classifier :: prompts.
Definition toy_causal_call (router_model : string)
    (input : gmap string (list string)) : M unit (gmap string float) :=
  mret (<["binary_prob" := Fin (1 / 4)]> ∅).

(** A matrix-factorisation model that is its checkpoint path, a table of two
    model ids, and a prediction that is always 3/4. *)
Definition toy_MODEL_IDS : gmap string Z :=
  <["gpt4" := 7%Z]> (<["llama" := 9%Z]> ∅).
Definition toy_from_pretrained (path : string) (dim : Z) : M unit string := mret path.
Definition toy_eval_to (model device : string) : M unit string := mret model.
Definition toy_pred_win_rate (model : string) (strong weak : Z) (prompt : string)
    : M unit float := mret (Fin (3 / 4)).

(** * Properties *)

(** ** Running computations *)

Lemma bind_run {S A B} (m : M S A) (k : A → M S B) (s : S) :
  (m ≫= k) s = match m s with
               | (Ok a, s') => k a s'
               | (Raise e, s') => (Raise e, s')
               end.
Proof. done. Qed.

Lemma mret_run {S A} (a : A) (s : S) : (mret a : M S A) s = (Ok a, s).
Proof. done. Qed.

Lemma getitem_run {S} `{Countable K} {V} (d : gmap K V) (k : K) (s : S) :
  getitem d k s = match d !! k with
                  | Some v => (Ok v, s)
                  | None => (Raise KeyError, s)
                  end.
Proof. unfold getitem. by destruct (d !! k). Qed.

(** ** Helpers on concrete inputs *)

Example endswith_json : endswith "battles.json" ".json" = true.
Proof. reflexivity. Qed.

Example endswith_jsonl : endswith "battles.jsonl" ".json" = false.
Proof. reflexivity. Qed.

Example endswith_short : endswith "on" ".json" = false.
Proof. reflexivity. Qed.

Example last_n_three : last_n 2 [1; 2; 3]%nat = [2; 3]%nat.
Proof. reflexivity. Qed.

Example last_n_one : last_n 2 [1]%nat = [1]%nat.
Proof. reflexivity. Qed.

Example getattr_inherited :
  getattr SWRankingRouter.cls "NO_PARALLEL" = Some false
  ∧ getattr RandomRouter.cls "NO_PARALLEL" = Some true
  ∧ getattr Router.cls "NO_PARALLEL" = Some false.
Proof. by vm_compute. Qed.

(** ** Routing decision *)

Lemma ge_Fin (w t : R) : (Fin w >=? Fin t)%float = true ↔ (w >= t)%R.
Proof.
  unfold ge. destruct (Rle_dec t w) as [H|H]; split; intros; try done; lra.
Qed.

(** C1. [route] calls the estimator once, with the prompt it was given, and
    answers [strong] exactly when the win rate it got back is [>=] the
    threshold (so also when the two are equal) and [weak] otherwise; an
    exception of the estimator passes through.  On finite values [>=] is the
    order of the reals. *)
Theorem route_threshold {S} (est : string → M S float)
    (prompt : string) (threshold : float) (s : S) (log : list string) :
  Router.route (counted est) prompt threshold (s, log) =
    (match (est prompt s).1 with
     | Ok w => Ok (if (w >=? threshold)%float then strong else weak)
     | Raise e => Raise e
     end, ((est prompt s).2, log ++ [prompt]))
  ∧ (∀ w t : R, (if (Fin w >=? Fin t)%float then strong else weak) = strong
                ↔ (w >= t)%R)
  ∧ (∀ w : float, w ≠ NaN → (w >=? w)%float = true).
Proof.
  split_and!.
  - unfold Router.route, counted, mbind, M_bind, bind.
    destruct (est prompt s) as [[w|e] s']; simpl; [|done].
    by destruct (w >=? threshold)%float.
  - intros w t. rewrite <- ge_Fin. destruct (Fin w >=? Fin t)%float; naive_solver.
  - intros [w| | |] Hw; try done. apply ge_Fin. lra.
Qed.

Example route_boundary :
  Router.route (λ _, mret (Fin (1 / 2))) "hello" (Fin (1 / 2)) tt = (Ok strong, tt)
  ∧ Router.route (λ _, mret (Fin (1 / 4))) "hello" (Fin (1 / 2)) tt = (Ok weak, tt)
  ∧ Router.route (λ _, mret NaN) "hello" (Fin 0) tt = (Ok weak, tt)
  ∧ Router.route (λ _, raise (ExternalError "timeout")) "hello" (Fin 0) tt
    = (Raise (ExternalError "timeout"), tt).
Proof.
  unfold Router.route. rewrite !bind_run, !mret_run. split_and!; try done.
  - assert ((Fin (1 / 2) >=? Fin (1 / 2))%float = true) as ->; [|done].
    apply ge_Fin. lra.
  - assert ((Fin (1 / 4) >=? Fin (1 / 2))%float = false) as ->; [|done].
    apply not_true_is_false. rewrite ge_Fin. lra.
Qed.

(** ** Parallel-safety flags *)

(** C5, as the code has it: [NO_PARALLEL] is true for the random, causal
    LLM, BERT and matrix-factorisation routers, which carry the
    [no_parallel] decorator, and false, inherited from [Router], only for
    the similarity-weighted ranking router. *)
Theorem no_parallel_flags :
  NO_PARALLEL "random" = Some true
  ∧ NO_PARALLEL "causal_llm" = Some true
  ∧ NO_PARALLEL "bert" = Some true
  ∧ NO_PARALLEL "matrix_factorization" = Some true
  ∧ NO_PARALLEL "sw_ranking" = Some false.
Proof. by vm_compute. Qed.

(** C5 as stated fails: the classifier-style and matrix-factorisation
    routers are not flagged parallel-safe. *)
Lemma no_parallel_classifiers_not_false :
  NO_PARALLEL "causal_llm" ≠ Some false
  ∧ NO_PARALLEL "bert" ≠ Some false
  ∧ NO_PARALLEL "matrix_factorization" ≠ Some false.
Proof. by vm_compute. Qed.

(** ** Finite floats *)

Lemma max2_Fin (a b : R) : max2 (Fin a) (Fin b) = Fin (Rmax a b).
Proof.
  unfold max2, ge, Rmax.
  destruct (Rle_dec b a), (Rle_dec a b); try done; f_equal; lra.
Qed.

Lemma foldl_max2_Fin (l : list R) (x : R) :
  foldl max2 (Fin x) (Fin <$> l) = Fin (foldl Rmax x l).
Proof.
  revert x. induction l as [|y l IH]; intros x; [done|].
  rewrite fmap_cons. cbn [foldl]. by rewrite max2_Fin, IH.
Qed.

Lemma foldl_Rmax_ge (l : list R) (x : R) : (x <= foldl Rmax x l)%R.
Proof.
  revert x. induction l as [|y l IH]; intros x; simpl; [lra|].
  etransitivity; [apply (Rmax_l x y)|apply IH].
Qed.

Lemma foldl_Rmax_ub (l : list R) (x y : R) :
  y ∈ x :: l → (y <= foldl Rmax x l)%R.
Proof.
  revert x. induction l as [|z l IH]; intros x Hy; simpl.
  - apply list_elem_of_singleton in Hy. lra.
  - apply elem_of_cons in Hy as [->|Hy].
    + etransitivity; [apply (Rmax_l x z)|apply foldl_Rmax_ge].
    + apply elem_of_cons in Hy as [->|Hy].
      * etransitivity; [apply (Rmax_r x z)|apply foldl_Rmax_ge].
      * apply IH. by right.
Qed.

Lemma foldl_Rmax_elem (l : list R) (x : R) : foldl Rmax x l ∈ x :: l.
Proof.
  revert x. induction l as [|z l IH]; intros x; simpl; [by left|].
  specialize (IH (Rmax x z)).
  apply elem_of_cons in IH as [->|IH]; [|by do 2 right].
  unfold Rmax. destruct (Rle_dec x z); [right|]; by left.
Qed.

(** The maximum of a list is determined by being a member and an upper
    bound. *)
Lemma foldl_Rmax_unique (l : list R) (x m : R) :
  m ∈ x :: l → Forall (λ y, y <= m)%R (x :: l) → foldl Rmax x l = m.
Proof.
  intros Hm Hub. apply Rle_antisym.
  - rewrite Forall_forall in Hub. apply Hub, foldl_Rmax_elem.
  - by apply foldl_Rmax_ub.
Qed.

Lemma np_max_Fin {S} (s : list R) (m : R) (st : S) :
  m ∈ s → Forall (λ y, y <= m)%R s → np_max (Fin <$> s) st = (Ok (Fin m), st).
Proof.
  destruct s as [|x l]; intros Hm Hub; [by apply elem_of_nil in Hm|].
  simpl. unfold mret, M_ret, ret.
  by rewrite foldl_max2_Fin, (foldl_Rmax_unique l x m).
Qed.

Lemma Rpower10_pos (x : R) : (0 < Rpower 10 x)%R.
Proof. unfold Rpower. apply exp_pos. Qed.

Lemma div_Fin (a b : R) : b ≠ 0%R → (Fin a / Fin b)%float = Fin (a / b).
Proof. intros Hb. simpl. by destruct (Req_dec_T b 0). Qed.

Lemma sum_Fin (l : list R) : sum (Fin <$> l) = Fin (Rsum l).
Proof.
  induction l as [|x l IH]; [done|].
  rewrite fmap_cons. unfold sum in *. cbn [foldr]. by rewrite IH.
Qed.

Lemma last_n_fmap {A B} (f : A → B) (n : nat) (l : list A) :
  last_n n (f <$> l) = f <$> last_n n l.
Proof. unfold last_n. by rewrite length_fmap, fmap_drop. Qed.

Lemma Rsum_scale (l : list R) (c : R) :
  Rsum ((λ x, x * c)%R <$> l) = (Rsum l * c)%R.
Proof.
  induction l as [|x l IH]; [simpl; lra|].
  rewrite fmap_cons. unfold Rsum in *. cbn [foldr]. rewrite IH. lra.
Qed.

Lemma Rsum_pos (l : list R) :
  l ≠ [] → Forall (λ x, 0 < x)%R l → (0 < Rsum l)%R.
Proof.
  intros Hne Hpos. destruct l as [|x l]; [done|]. clear Hne.
  revert x Hpos. induction l as [|y l IH]; intros x Hpos.
  - apply Forall_cons in Hpos as [Hx _]. simpl. lra.
  - apply Forall_cons in Hpos as [Hx Hpos]. specialize (IH y Hpos).
    simpl in *. lra.
Qed.

Lemma Rsum_nonneg (l : list R) : Forall (λ x, 0 <= x)%R l → (0 <= Rsum l)%R.
Proof. induction 1; simpl; [lra|]. unfold Rsum in *. lra. Qed.

(** ** Softmax *)

(** Subtracting the same number from every logit leaves the softmax
    unchanged: the way the code computes it agrees with the definition. *)
Lemma softmax_shift (logits : list R) (m : R) :
  let exp_scores := (λ x, Rtrigo_def.exp (x + - m))%R <$> logits in
  logits ≠ [] →
  (λ e, e / Rsum exp_scores)%R <$> exp_scores = softmax logits.
Proof.
  intros exp_scores Hne.
  assert (Rsum exp_scores = Rsum (Rtrigo_def.exp <$> logits) * Rtrigo_def.exp (- m))%R
    as Hsum.
  { unfold exp_scores. rewrite <- Rsum_scale, <- list_fmap_compose.
    f_equal. apply list_fmap_ext. intros _ x _. simpl. apply exp_plus. }
  assert (0 < Rsum (Rtrigo_def.exp <$> logits))%R as Hpos.
  { apply Rsum_pos; [by destruct logits|].
    apply Forall_fmap, Forall_true. intros y. apply exp_pos. }
  pose proof (exp_pos (- m)) as Hm.
  unfold softmax, exp_scores. rewrite <- list_fmap_compose.
  apply list_fmap_ext. intros _ x _. simpl. fold exp_scores. rewrite Hsum.
  rewrite exp_plus. field. lra.
Qed.

(** ** The BERT router on finite logits *)

Lemma bert_value {S tokens} (tokenizer : string → M S tokens)
    (model : tokens → M S (list float)) (prompt : string) (s s1 s2 : S)
    (inputs : tokens) (logits : list R) :
  logits ≠ [] →
  tokenizer prompt s = (Ok inputs, s1) →
  model inputs s1 = (Ok (Fin <$> logits), s2) →
  BERTRouter.calculate_strong_win_rate tokenizer model prompt s
  = (Ok (Fin (1 - Rsum (last_n 2 (softmax logits)))), s2).
Proof.
  intros Hne Htok Hmodel.
  unfold BERTRouter.calculate_strong_win_rate, mbind, M_bind, bind.
  rewrite Htok, Hmodel.
  destruct logits as [|x l]; [done|].
  rewrite fmap_cons. cbn [np_max]. unfold mret, M_ret, ret.
  rewrite foldl_max2_Fin. set (m := foldl Rmax x l).
  rewrite <- fmap_cons. set (logits := x :: l) in *.
  assert (map (λ a, exp (a - Fin m)%float) (Fin <$> logits)
          = Fin <$> ((λ a, Rtrigo_def.exp (a + - m))%R <$> logits)) as ->.
  { by rewrite <- !list_fmap_compose. }
  set (exp_scores := (λ a, Rtrigo_def.exp (a + - m))%R <$> logits).
  assert (0 < Rsum exp_scores)%R as Hpos.
  { apply Rsum_pos; [done|].
    apply Forall_fmap, Forall_true. intros y. apply exp_pos. }
  rewrite sum_Fin.
  assert (map (λ a, (a / Fin (Rsum exp_scores))%float) (Fin <$> exp_scores)
          = Fin <$> ((λ e, e / Rsum exp_scores)%R <$> exp_scores)) as ->.
  { rewrite <- !list_fmap_compose. apply list_fmap_ext. intros _ e _.
    apply div_Fin. lra. }
  unfold exp_scores. rewrite (softmax_shift logits m Hne).
  by rewrite last_n_fmap, sum_Fin.
Qed.

(** ** Similarity weights *)

Lemma get_weightings_Fin {S} (s : list R) (m : R) (st : S) :
  m ∈ s → Forall (λ y, y <= m)%R s →
  SWRankingRouter.get_weightings (Fin <$> s) st
  = (Ok ((λ v, Fin 10 * pow10 (Fin v / Fin m))%float <$> s), st).
Proof.
  intros Hm Hub. unfold SWRankingRouter.get_weightings, mbind, M_bind, bind.
  rewrite (np_max_Fin s m st Hm Hub). unfold mret, M_ret, ret.
  do 2 f_equal. by rewrite <- list_fmap_compose.
Qed.

Lemma weighting_nonzero_max (m v : R) :
  m ≠ 0%R → (Fin 10 * pow10 (Fin v / Fin m))%float = Fin (weight m v).
Proof. intros Hm. simpl. by destruct (Req_dec_T m 0). Qed.

Lemma weight_mono (m x y : R) :
  (0 < m)%R → (x <= y)%R → (weight m x <= weight m y)%R.
Proof.
  intros Hm Hxy. unfold weight.
  apply Rmult_le_compat_l; [lra|].
  apply Rle_Rpower; [lra|].
  apply Rmult_le_compat_r; [|done].
  left. by apply Rinv_0_lt_compat.
Qed.

Lemma weight_anti (m x y : R) :
  (m < 0)%R → (x <= y)%R → (weight m y <= weight m x)%R.
Proof.
  intros Hm Hxy. unfold weight.
  apply Rmult_le_compat_l; [lra|].
  apply Rle_Rpower; [lra|].
  unfold Rdiv. pose proof (Rinv_lt_0_compat m Hm). nra.
Qed.

(** *** Rounded weights *)

Lemma float_le_top (a : float) : a ≠ NaN → float_le a PInf.
Proof. by destruct a. Qed.

Lemma float_le_bot (a : float) : a ≠ NaN → float_le NInf a.
Proof. by destruct a. Qed.

Lemma signed_inf_pos (x : R) : (0 < x)%R → signed_inf x = PInf.
Proof.
  intros Hx. unfold signed_inf.
  destruct (Req_dec_T x 0); [lra|]. by destruct (Rlt_dec 0 x).
Qed.

Lemma signed_inf_neg (x : R) : (x < 0)%R → signed_inf x = NInf.
Proof.
  intros Hx. unfold signed_inf.
  destruct (Req_dec_T x 0); [lra|]. destruct (Rlt_dec 0 x); [lra|done].
Qed.

Section RoundedWeights.
Variable rnd : R → float.
Hypothesis Hrnd : rounding rnd.

Lemma rnd_nonneg (x : R) : (0 <= x)%R → float_le (Fin 0) (rnd x).
Proof. intros Hx. rewrite <- (rnd_zero rnd Hrnd). by apply rnd_mono. Qed.

Lemma pow10_nonneg (a : float) : a ≠ NaN → float_le (Fin 0) (Rounded.pow10 rnd a).
Proof.
  destruct a as [x| | |]; intros Ha; cbn [Rounded.pow10 PyFloat.pow10 float_le];
    [|done|lra|done].
  apply rnd_nonneg. left. apply Rpower10_pos.
Qed.

Lemma pow10_mono (a b : float) :
  float_le a b → float_le (Rounded.pow10 rnd a) (Rounded.pow10 rnd b).
Proof.
  destruct a as [x| | |], b as [y| | |];
    cbn [Rounded.pow10 PyFloat.pow10 float_le]; try done; intros Hab.
  - apply rnd_mono; [done|]. apply Rle_Rpower; [lra|done].
  - apply float_le_top, rnd_not_nan, Hrnd.
  - apply (rnd_nonneg (Rpower 10 y)). left. apply Rpower10_pos.
Qed.

Lemma mul10_nonneg (a : float) :
  float_le (Fin 0) a → float_le (Fin 0) (Rounded.mul rnd (Fin 10) a).
Proof.
  destruct a as [y| | |]; cbn [Rounded.mul PyFloat.mul float_le]; try done.
  - intros Hy. apply rnd_nonneg. lra.
  - intros _. by rewrite signed_inf_pos by lra.
Qed.

Lemma mul10_mono (a b : float) :
  float_le a b →
  float_le (Rounded.mul rnd (Fin 10) a) (Rounded.mul rnd (Fin 10) b).
Proof.
  destruct a as [x| | |], b as [y| | |];
    cbn [Rounded.mul PyFloat.mul float_le]; try done; intros Hab;
    rewrite ?(signed_inf_pos 10), ?(signed_inf_neg (Ropp 10)) by lra; try done.
  - apply rnd_mono; [done|lra].
  - apply float_le_top, rnd_not_nan, Hrnd.
  - apply float_le_bot, rnd_not_nan, Hrnd.
Qed.

Lemma rounded_weight_nonzero_max (m x : R) :
  m ≠ 0%R →
  rounded_weight rnd m x
  = Rounded.mul rnd (Fin 10) (Rounded.pow10 rnd (rnd (x / m))).
Proof.
  intros Hm. unfold rounded_weight. cbn [Rounded.div].
  by destruct (Req_dec_T m 0).
Qed.

Lemma rounded_weight_nonneg (m x : R) :
  m ≠ 0%R → float_le (Fin 0) (rounded_weight rnd m x).
Proof.
  intros Hm. rewrite rounded_weight_nonzero_max by done.
  apply mul10_nonneg, pow10_nonneg, rnd_not_nan, Hrnd.
Qed.

Lemma rounded_weight_mono (m x y : R) :
  (0 < m)%R → (x <= y)%R →
  float_le (rounded_weight rnd m x) (rounded_weight rnd m y).
Proof.
  intros Hm Hxy. rewrite !rounded_weight_nonzero_max by lra.
  apply mul10_mono, pow10_mono, rnd_mono; [done|].
  apply Rmult_le_compat_r; [|done]. left. by apply Rinv_0_lt_compat.
Qed.

Lemma rounded_weight_anti (m x y : R) :
  (m < 0)%R → (x <= y)%R →
  float_le (rounded_weight rnd m y) (rounded_weight rnd m x).
Proof.
  intros Hm Hxy. rewrite !rounded_weight_nonzero_max by lra.
  apply mul10_mono, pow10_mono, rnd_mono; [done|].
  unfold Rdiv. pose proof (Rinv_lt_0_compat m Hm). nra.
Qed.

End RoundedWeights.

Lemma get_weightings_rounded {S} (rnd : R → float) (s : list R) (m : R) (st : S) :
  m ∈ s → Forall (λ y, y <= m)%R s →
  Rounded.get_weightings rnd (Fin <$> s) st
  = (Ok (rounded_weight rnd m <$> s), st).
Proof.
  intros Hm Hub. unfold Rounded.get_weightings, mbind, M_bind, bind.
  rewrite (np_max_Fin s m st Hm Hub). unfold mret, M_ret, ret.
  do 2 f_equal. by rewrite <- list_fmap_compose.
Qed.

(** Without rounding the rounded operations are the exact ones. *)
Lemma mul_exact (a b : float) : Rounded.mul Fin a b = (a * b)%float.
Proof. by destruct a, b. Qed.

Lemma div_exact (a b : float) : Rounded.div Fin a b = (a / b)%float.
Proof. by destruct a, b. Qed.

Lemma pow10_exact (a : float) : Rounded.pow10 Fin a = pow10 a.
Proof. by destruct a. Qed.

Lemma get_weightings_exact {S} (similarities : list float) (st : S) :
  Rounded.get_weightings Fin similarities st
  = SWRankingRouter.get_weightings similarities st.
Proof.
  unfold Rounded.get_weightings, SWRankingRouter.get_weightings.
  rewrite !bind_run. destruct (np_max similarities st) as [[m|e] st']; [|done].
  rewrite !mret_run. do 2 f_equal. apply list_fmap_ext. intros _ a _.
  by rewrite div_exact, pow10_exact, mul_exact.
Qed.

Lemma rounded_weight_exact (m x : R) :
  m ≠ 0%R → rounded_weight Fin m x = Fin (weight m x).
Proof.
  intros Hm. unfold rounded_weight.
  rewrite div_exact, pow10_exact, mul_exact. by apply weighting_nonzero_max.
Qed.

(** *** The range of float64 *)

Lemma range64_bounds : (0 < / 2 ^ 1075 < 1)%R ∧ (1 < 2 ^ 1024)%R.
Proof.
  assert (1 < 2 ^ 1075)%R as H1 by (apply Rlt_pow_R1; [lra|lia]).
  assert (1 < 2 ^ 1024)%R as H2 by (apply Rlt_pow_R1; [lra|lia]).
  split; [|done]. split.
  - apply Rinv_0_lt_compat. lra.
  - rewrite <- Rinv_1. apply Rinv_lt_contravar; lra.
Qed.

Lemma range64_rounding : rounding range64.
Proof.
  destruct range64_bounds as [Hu HT]. unfold range64.
  set (T := (2 ^ 1024)%R) in *. set (u := (/ 2 ^ 1075)%R) in *.
  clearbody T u. split.
  - intros x. by repeat destruct (Rle_dec _ _).
  - intros x y Hxy.
    repeat destruct (Rle_dec _ _); cbn [float_le]; try done;
      unfold Rabs in *; repeat destruct (Rcase_abs _); lra.
  - rewrite Rabs_R0. repeat destruct (Rle_dec _ _); try done; lra.
Qed.

Lemma range64_binary64 : binary64_range range64.
Proof.
  destruct range64_bounds as [Hu HT].
  assert (IZR (2 ^ 53) < 2 ^ 1024)%R as H53.
  { change (2 ^ 53)%Z with (2 ^ Z.of_nat 53)%Z. rewrite <- pow_IZR.
    apply Rlt_pow; [lra|lia]. }
  unfold range64.
  set (T := (2 ^ 1024)%R) in *. set (u := (/ 2 ^ 1075)%R) in *.
  split.
  - intros x Hx. by destruct (Rle_dec T x).
  - intros x Hx. fold u in Hx. clearbody T u.
    rewrite (Rabs_pos_eq x) by lra.
    repeat destruct (Rle_dec _ _); try done; lra.
  - intros z [Hlo Hhi].
    apply IZR_le in Hlo, Hhi. rewrite opp_IZR in Hlo. clearbody T u.
    destruct (decide (z = 0%Z)) as [->|Hz].
    + rewrite Rabs_R0. repeat destruct (Rle_dec _ _); try done; lra.
    + assert (1 <= Rabs (IZR z))%R as Habs.
      { rewrite <- abs_IZR. apply (IZR_le 1). lia. }
      revert Habs. unfold Rabs. destruct (Rcase_abs (IZR z)); intros Habs;
        repeat destruct (Rle_dec _ _); try done; lra.
Qed.

Lemma Rpower10_1024 : Rpower 10 1024 = (10 ^ 1024)%R.
Proof.
  rewrite <- Rpower_pow by lra. f_equal. by rewrite INR_IZR_INZ.
Qed.

Lemma Rpower10_overflow : (2 ^ 1024 <= Rpower 10 1024)%R.
Proof. rewrite Rpower10_1024. apply pow_incr. lra. Qed.

Lemma Rpower10_underflow : (0 <= Rpower 10 (IZR (- 1024)) <= / 2 ^ 1075)%R.
Proof.
  split; [left; apply Rpower10_pos|].
  change (IZR (- 1024)) with (IZR (Z.opp 1024)).
  rewrite opp_IZR, Rpower_Ropp, Rpower10_1024.
  apply Rinv_le_contravar; [apply pow_lt; lra|].
  transitivity ((2 ^ 3) ^ 1024)%R.
  - rewrite <- pow_mult. apply Rle_pow; [lra|lia].
  - apply pow_incr. lra.
Qed.

(** With the range of float64 a weight overflows to [inf] and underflows to
    zero although the largest similarity is not zero: on
    [[-1, -2^-10]] the first weight is [10 * 10 ** 1024], on [[-1, 2^-10]]
    it is [10 * 10 ** -1024]. *)
Lemma get_weightings_out_of_range {S} (rnd : R → float) (st : S) :
  binary64_range rnd →
  Rounded.get_weightings rnd [Fin (-1); Fin (- / 1024)] st
  = (Ok [PInf; Fin 100], st)
  ∧ Rounded.get_weightings rnd [Fin (-1); Fin (/ 1024)] st
    = (Ok [Fin 0; Fin 100], st).
Proof.
  intros Hrange.
  assert (∀ z : Z, (- 2 ^ 53 ≤ z ≤ 2 ^ 53)%Z → rnd (IZR z) = Fin (IZR z)) as Hint
    by apply Hrange.
  assert (Rounded.mul rnd (Fin 10)
            (Rounded.pow10 rnd (rnd 1%R)) = Fin 100) as Hmax.
  { rewrite (Hint 1%Z) by lia. cbn [Rounded.pow10].
    rewrite Rpower_1 by lra. rewrite (Hint 10%Z) by lia. cbn [Rounded.mul].
    replace (10 * 10)%R with 100%R by lra. apply (Hint 100%Z). lia. }
  split.
  - change [Fin (-1); Fin (- / 1024)] with (Fin <$> [-1; - / 1024]%R).
    rewrite (get_weightings_rounded rnd _ (- / 1024)%R);
      [|by right; left|repeat constructor; lra].
    cbn [fmap list_fmap]. rewrite !rounded_weight_nonzero_max by lra.
    replace (-1 / - / 1024)%R with 1024%R by (field; lra).
    replace (- / 1024 / - / 1024)%R with 1%R by (field; lra).
    rewrite Hmax. rewrite (Hint 1024%Z) by lia. cbn [Rounded.pow10].
    rewrite (rnd_overflow rnd Hrange) by apply Rpower10_overflow.
    cbn [Rounded.mul PyFloat.mul]. by rewrite signed_inf_pos by lra.
  - change [Fin (-1); Fin (/ 1024)] with (Fin <$> [-1; / 1024]%R).
    rewrite (get_weightings_rounded rnd _ (/ 1024)%R);
      [|by right; left|repeat constructor; lra].
    cbn [fmap list_fmap]. rewrite !rounded_weight_nonzero_max by lra.
    replace (-1 / / 1024)%R with (IZR (- 1024)) by (field; lra).
    replace (/ 1024 / / 1024)%R with 1%R by (field; lra).
    rewrite Hmax. rewrite (Hint (- 1024)%Z) by lia. cbn [Rounded.pow10].
    rewrite (rnd_underflow rnd Hrange) by apply Rpower10_underflow.
    cbn [Rounded.mul]. rewrite Rmult_0_r. by rewrite (Hint 0%Z) by lia.
Qed.

(** C3, as the code has it: for a similarity vector whose maximum [m] is not
    zero, [get_weightings] returns for every entry the float
    [10 * 10 ** (s_i / m)], each operation rounded; without rounding that is
    the real number [10 * 10^(s_i / m)].  No weight is [nan] and none is
    negative: a weight is a number from zero on, or [inf].  The weights are
    non-decreasing in the similarity when [m] is positive and non-increasing
    when [m] is negative. *)
Theorem get_weightings_rounded_monotone {S} (rnd : R → float) (s : list R)
    (m : R) (st : S) :
  rounding rnd → m ∈ s → Forall (λ y, y <= m)%R s → m ≠ 0%R →
  Rounded.get_weightings rnd (Fin <$> s) st
    = (Ok (rounded_weight rnd m <$> s), st)
  ∧ SWRankingRouter.get_weightings (Fin <$> s) st
    = (Ok (rounded_weight Fin m <$> s), st)
  ∧ (∀ x, rounded_weight Fin m x = Fin (weight m x))
  ∧ Forall (float_le (Fin 0)) (rounded_weight rnd m <$> s)
  ∧ ((0 < m)%R → ∀ x y, x ∈ s → y ∈ s → (x <= y)%R →
                  float_le (rounded_weight rnd m x) (rounded_weight rnd m y))
  ∧ ((m < 0)%R → ∀ x y, x ∈ s → y ∈ s → (x <= y)%R →
                  float_le (rounded_weight rnd m y) (rounded_weight rnd m x)).
Proof.
  intros Hrnd Hm Hub Hm0. split_and!.
  - by apply get_weightings_rounded.
  - rewrite <- get_weightings_exact. by apply get_weightings_rounded.
  - intros x. by apply rounded_weight_exact.
  - apply Forall_fmap, Forall_true. intros x. by apply rounded_weight_nonneg.
  - intros Hpos x y _ _. by apply rounded_weight_mono.
  - intros Hneg x y _ _. by apply rounded_weight_anti.
Qed.

Lemma get_weightings_rounded_monotone_witness :
  rounding range64
  ∧ (1 ∈ [1/2; 1])%R ∧ Forall (λ y, y <= 1)%R [1/2; 1]%R ∧ (1 ≠ 0)%R
  ∧ Rounded.get_weightings range64 (Fin <$> [1/2; 1]%R) tt
    = (Ok (rounded_weight range64 1 <$> [1/2; 1]%R), tt)
  ∧ Forall (float_le (Fin 0)) (rounded_weight range64 1 <$> [1/2; 1]%R).
Proof.
  assert (H1 : (1 ∈ [1/2; 1])%R) by (right; left).
  assert (H2 : Forall (λ y, y <= 1)%R [1/2; 1]%R)
    by (repeat constructor; lra).
  assert (H3 : (1 ≠ 0)%R) by lra.
  destruct (get_weightings_rounded_monotone range64 [1/2; 1]%R 1%R tt
              range64_rounding H1 H2 H3) as (Hrun & _ & _ & Hnn & _).
  by split_and!; [apply range64_rounding|..].
Defined.

(** C3 as stated fails on a vector of negative similarities: the larger
    similarity gets the smaller weight. *)
Lemma get_weightings_not_monotone :
  ∃ wi wj : R,
    SWRankingRouter.get_weightings [Fin (-2); Fin (-1)] tt
      = (Ok [Fin wi; Fin wj], tt)
    ∧ (-2 <= -1)%R ∧ ¬ (wi <= wj)%R.
Proof.
  exists (weight (-1) (-2)), (weight (-1) (-1)). split_and!.
  - assert (H1 : ((-1) ∈ [-2; -1])%R) by (right; left).
    assert (H2 : Forall (λ y, y <= -1)%R [-2; -1]%R)
      by (repeat constructor; lra).
    change [Fin (-2); Fin (-1)] with (Fin <$> [-2; -1]%R).
    rewrite (get_weightings_Fin _ _ tt H1 H2). simpl.
    destruct (Req_dec_T (-1) 0); [lra|done].
  - lra.
  - unfold weight. intros Hle.
    assert (Rpower 10 (-1 / -1) < Rpower 10 (-2 / -1))%R; [|lra].
    apply Rpower_lt; lra.
Qed.

Lemma max2_cases (a b : float) : max2 a b = a ∨ max2 a b = b.
Proof.
  unfold max2. destruct a, b; try (by left); try (by right);
    destruct (ge _ _); [by left|by right].
Qed.

Lemma foldl_max2_elem (l : list float) (x : float) : foldl max2 x l ∈ x :: l.
Proof.
  revert x. induction l as [|y l IH]; intros x; cbn [foldl]; [by left|].
  specialize (IH (max2 x y)).
  apply elem_of_cons in IH as [->|IH]; [|by do 2 right].
  destruct (max2_cases x y) as [->| ->]; [by left|by right; left].
Qed.

Lemma foldl_max2_finite (l : list float) (x : float) :
  Forall (λ a, ∃ r, a = Fin r) (x :: l) →
  ∃ s m, x :: l = Fin <$> s ∧ m ∈ s ∧ Forall (λ y, y <= m)%R s.
Proof.
  intros Hfin.
  assert (∃ s, x :: l = Fin <$> s) as [s Hs].
  { induction Hfin as [|a k [r ->] _ [s ->]]; [by exists []|by exists (r :: s)]. }
  destruct s as [|r s]; [done|]. exists (r :: s), (foldl Rmax r s).
  split_and!; [done|apply foldl_Rmax_elem|].
  apply Forall_forall. intros y Hy. by apply foldl_Rmax_ub.
Qed.

(** C10 as stated fails in float64: on [[-1, -2^-10]] the largest similarity
    is not zero and the first weight, [10 * 10 ** 1024], is [inf]. *)
Lemma get_weightings_nonzero_max_overflow :
  np_max [Fin (-1); Fin (- / 1024)] tt = (Ok (Fin (- / 1024)), tt)
  ∧ (- / 1024 ≠ 0)%R
  ∧ Rounded.get_weightings range64 [Fin (-1); Fin (- / 1024)] tt
    = (Ok [PInf; Fin 100], tt).
Proof.
  split_and!.
  - apply (np_max_Fin [-1; - / 1024]%R); [by right; left|repeat constructor; lra].
  - lra.
  - apply (get_weightings_out_of_range range64 tt range64_binary64).
Qed.

(** C10, as the code has it.  [get_weightings] divides by the maximum
    without a guard.  On a vector that is not empty: when the maximum is
    zero a weight is [nan], so weights that are all finite and strictly
    positive are returned only when the maximum is not zero; and when the
    similarities are finite and their maximum is not zero, no weight is
    [nan] and none is negative, although a weight may be zero or [inf]. *)
Theorem get_weightings_nonzero_max_necessary {S} (rnd : R → float)
    (similarities : list float) (st : S) :
  similarities ≠ [] →
  ∃ max_sim ws,
    np_max similarities st = (Ok max_sim, st)
    ∧ Rounded.get_weightings rnd similarities st = (Ok ws, st)
    ∧ (max_sim = Fin 0 → NaN ∈ ws)
    ∧ (Forall (λ w, ∃ r, w = Fin r ∧ (0 < r)%R) ws → max_sim ≠ Fin 0)
    ∧ (rounding rnd →
       Forall (λ a, ∃ r, a = Fin r) similarities →
       max_sim ≠ Fin 0 →
       Forall (float_le (Fin 0)) ws).
Proof.
  intros Hne. destruct similarities as [|x l]; [done|]. clear Hne.
  exists (foldl max2 x l),
    ((λ s, Rounded.mul rnd (Fin 10)
             (Rounded.pow10 rnd (Rounded.div rnd s (foldl max2 x l)))) <$> (x :: l)).
  assert (foldl max2 x l = Fin 0 →
          NaN ∈ (λ s, Rounded.mul rnd (Fin 10)
                        (Rounded.pow10 rnd (Rounded.div rnd s (foldl max2 x l))))
                <$> (x :: l)) as Hnan.
  { intros Hmax. pose proof (foldl_max2_elem l x) as Hin. rewrite Hmax in *.
    apply list_elem_of_fmap. exists (Fin 0). split; [|done].
    cbn [Rounded.div]. destruct (Req_dec_T 0 0) as [_|Hz]; [|lra].
    unfold signed_inf. by destruct (Req_dec_T 0 0). }
  split_and!; [done|done|done|..].
  - intros Hall Hmax. apply Hnan in Hmax.
    rewrite Forall_forall in Hall. by destruct (Hall NaN Hmax) as (r & ? & _).
  - intros Hrnd Hfin Hmax.
    destruct (foldl_max2_finite l x Hfin) as (s & m & Hs & Hm & Hub).
    assert (foldl max2 x l = Fin m) as Hmax_m.
    { pose proof (np_max_Fin s m st Hm Hub) as Hrun. rewrite <- Hs in Hrun.
      by injection Hrun. }
    rewrite Hmax_m, Hs in *. rewrite <- list_fmap_compose.
    apply Forall_fmap, Forall_true. intros y.
    apply (rounded_weight_nonneg rnd Hrnd m y). by intros ->.
Qed.

Lemma get_weightings_nonzero_max_necessary_witness :
  [Fin (-1); Fin 0] ≠ []
  ∧ ∃ max_sim ws,
      np_max [Fin (-1); Fin 0] tt = (Ok max_sim, tt)
      ∧ Rounded.get_weightings range64 [Fin (-1); Fin 0] tt = (Ok ws, tt)
      ∧ (max_sim = Fin 0 → NaN ∈ ws).
Proof.
  assert (H : [Fin (-1); Fin 0] ≠ []) by discriminate.
  destruct (get_weightings_nonzero_max_necessary range64 [Fin (-1); Fin 0] tt H)
    as (max_sim & ws & Hmax & Hrun & Hnan & _).
  split; [done|]. by exists max_sim, ws.
Defined.

(** With a zero maximum the weight of the maximal entry is [nan] and the
    weight of a negative entry is zero. *)
Example get_weightings_zero_max :
  SWRankingRouter.get_weightings [Fin (-1); Fin 0] tt
    = (Ok [Fin (10 * 0); NaN], tt).
Proof.
  assert (H1 : (0 ∈ [-1; 0])%R) by (right; left).
  assert (H2 : Forall (λ y, y <= 0)%R [-1; 0]%R)
    by (repeat constructor; lra).
  change [Fin (-1); Fin 0] with (Fin <$> [-1; 0]%R).
  rewrite (get_weightings_Fin _ _ tt H1 H2). simpl.
  unfold signed_inf.
  destruct (Req_dec_T 0 0); [|lra].
  destruct (Req_dec_T (-1) 0); [lra|].
  destruct (Rlt_dec 0 (-1)); [lra|done].
Qed.

(** ** Construction of the similarity-weighted router *)

Lemma apply_getitem_state {S} (m2t : gmap label Z) (col : list label) (st : S) :
  (apply (λ x, t ← getitem m2t x; mret (LInt t)) col st).2 = st.
Proof.
  unfold apply. set (f := λ x, t ← getitem m2t x; (mret (LInt t) : M S label)).
  induction col as [|x col IH]; [done|].
  cbn [mapM]. rewrite bind_run. unfold f at 1. rewrite bind_run, getitem_run.
  destruct (m2t !! x) as [t|]; [|done]. rewrite mret_run, bind_run.
  destruct (mapM f col st) as [[col'|e] st'] eqn:E; simpl in *; by subst.
Qed.

Lemma apply_getitem_ok {S} (m2t : gmap label Z) (col col' : list label) (st : S) :
  (apply (λ x, t ← getitem m2t x; mret (LInt t)) col st).1 = Ok col' →
  relabelled m2t col col'.
Proof.
  unfold apply, relabelled.
  set (f := λ x, t ← getitem m2t x; (mret (LInt t) : M S label)). revert col'.
  induction col as [|x col IH]; intros col' H.
  - simpl in H. injection H as <-. constructor.
  - cbn [mapM] in H. rewrite bind_run in H. unfold f at 1 in H.
    rewrite bind_run, getitem_run in H.
    destruct (m2t !! x) as [t|] eqn:Ht; [|done]. rewrite mret_run, bind_run in H.
    destruct (mapM f col st) as [[c|e] st'] eqn:E; simpl in H; [|done].
    injection H as <-. constructor; [by exists t|]. by apply IH.
Qed.

Lemma apply_getitem_not_fnf {S} (m2t : gmap label Z) (col : list label) (st : S)
    (msg : string) :
  (apply (λ x, t ← getitem m2t x; mret (LInt t)) col st).1
  ≠ Raise (FileNotFoundError msg).
Proof.
  unfold apply. set (f := λ x, t ← getitem m2t x; (mret (LInt t) : M S label)).
  induction col as [|x col IH]; [done|].
  cbn [mapM]. rewrite bind_run. unfold f at 1. rewrite bind_run, getitem_run.
  destruct (m2t !! x) as [t|]; [|done]. rewrite mret_run, bind_run.
  destruct (mapM f col st) as [[c|e] st'] eqn:E; simpl in *; [done|].
  intros [= ->]. by apply IH.
Qed.

Section Construction.
Variable compute_elo_mle_with_tie :
  DataFrame → option (list float) → gmap label float.
Variable compute_tiers : gmap label float → Z → gmap label Z.
Variables json_array_decode json_lines_decode : string → DataFrame.
Variable npy_decode : string → list (list float).
Variables strong_model weak_model arena_df_path arena_embedding_path : string.
Variable num_tiers : Z.

Let init :=
  SWRankingRouter.__init__ compute_elo_mle_with_tie compute_tiers
    json_array_decode json_lines_decode npy_decode
    strong_model weak_model arena_df_path arena_embedding_path num_tiers.

(** The dataset as [pd.read_json] decodes it from the contents of the
    file: a JSON array for a path ending in [.json], one JSON value per line
    otherwise. *)
Let decode_df (contents : string) : DataFrame :=
  if endswith arena_df_path ".json"
  then json_array_decode contents
  else json_lines_decode contents.

Lemma init_missing_dataset (fs : FS) :
  files fs !! arena_df_path = None →
  init fs
  = (Raise (if SWRankingRouter.is_json_path arena_df_path
            then FileNotFoundError
                   ("Expected data file not found at path: " +:+ arena_df_path)
            else ValueError),
     mkFS (files fs) (opened fs ++ [arena_df_path])).
Proof.
  intros Hdf. unfold init, SWRankingRouter.__init__, mbind, M_bind, bind,
    except_FileNotFoundError, SWRankingRouter.pd_read_json.
  by destruct (endswith arena_df_path ".json"); rewrite Hdf;
    destruct (SWRankingRouter.is_json_path arena_df_path).
Qed.

Lemma init_missing_embedding (fs : FS) (c1 : string) :
  files fs !! arena_df_path = Some c1 →
  files fs !! arena_embedding_path = None →
  init fs
  = (Raise (FileNotFoundError
              ("Expected data file not found at path: " +:+ arena_embedding_path)),
     mkFS (files fs) (opened fs ++ [arena_df_path; arena_embedding_path])).
Proof.
  intros Hdf Hemb. unfold init, SWRankingRouter.__init__, mbind, M_bind, bind,
    except_FileNotFoundError, SWRankingRouter.pd_read_json,
    SWRankingRouter.np_load, mbind, M_bind, bind, open_file.
  destruct (endswith arena_df_path ".json"); rewrite Hdf; simpl;
    rewrite Hemb; by rewrite <- app_assoc.
Qed.

Lemma init_both_present (fs : FS) (c1 c2 : string) :
  files fs !! arena_df_path = Some c1 →
  files fs !! arena_embedding_path = Some c2 →
  let m2t := compute_tiers (compute_elo_mle_with_tie (decode_df c1) None) num_tiers in
  (init fs).2 = mkFS (files fs) (opened fs ++ [arena_df_path; arena_embedding_path])
  ∧ (∀ msg, (init fs).1 ≠ Raise (FileNotFoundError msg))
  ∧ (∀ o, (init fs).1 = Ok o →
       o = SWRankingRouter.mkSelf strong_model weak_model
             (SWRankingRouter.arena_df o) (npy_decode c2)
             "text-embedding-3-small" m2t
       ∧ relabelled m2t (model_a (decode_df c1)) (model_a (SWRankingRouter.arena_df o))
       ∧ relabelled m2t (model_b (decode_df c1)) (model_b (SWRankingRouter.arena_df o))
       ∧ outcome (SWRankingRouter.arena_df o) = outcome (decode_df c1)).
Proof.
  intros Hdf Hemb m2t.
  set (fs2 := mkFS (files fs) (opened fs ++ [arena_df_path; arena_embedding_path])).
  set (f := λ x : label, t ← getitem m2t x; (mret (LInt t) : M FS label)).
  assert (init fs =
    (col_a ← apply f (model_a (decode_df c1));
     col_b ← apply f (model_b (set_model_a (decode_df c1) col_a));
     mret (SWRankingRouter.mkSelf strong_model weak_model
             (set_model_b (set_model_a (decode_df c1) col_a) col_b)
             (npy_decode c2) "text-embedding-3-small" m2t)) fs2) as ->.
  { unfold init, SWRankingRouter.__init__, mbind at 1 2, M_bind, bind,
      except_FileNotFoundError, SWRankingRouter.pd_read_json,
      SWRankingRouter.np_load, mbind, M_bind, bind, open_file, decode_df.
    destruct (endswith arena_df_path ".json"); rewrite Hdf; simpl;
      rewrite Hemb; simpl; by rewrite <- app_assoc. }
  unfold mbind, M_bind, bind. simpl.
  pose proof (apply_getitem_state m2t (model_a (decode_df c1)) fs2) as Hs1.
  pose proof (λ c, apply_getitem_ok m2t (model_a (decode_df c1)) c fs2) as Ho1.
  pose proof (apply_getitem_not_fnf m2t (model_a (decode_df c1)) fs2) as Hn1.
  fold f in Hs1, Ho1, Hn1.
  destruct (apply f (model_a (decode_df c1)) fs2) as [[col_a|e] st1];
    simpl in *; subst st1.
  2:{ split_and!; [done|intros msg [= ->]; by eapply Hn1|done]. }
  specialize (Ho1 col_a eq_refl).
  pose proof (apply_getitem_state m2t (model_b (decode_df c1)) fs2) as Hs2.
  pose proof (λ c, apply_getitem_ok m2t (model_b (decode_df c1)) c fs2) as Ho2.
  pose proof (apply_getitem_not_fnf m2t (model_b (decode_df c1)) fs2) as Hn2.
  fold f in Hs2, Ho2, Hn2.
  destruct (apply f (model_b (decode_df c1)) fs2) as [[col_b|e] st2];
    simpl in *; subst st2.
  2:{ split_and!; [done|intros msg [= ->]; by eapply Hn2|done]. }
  specialize (Ho2 col_b eq_refl).
  split_and!; [done|done|]. intros o [= <-]. by simpl.
Qed.

End Construction.

(** C6. Construction is meant to turn a missing dataset file into its own
    [FileNotFoundError], and for a path ending in [.json] it does.  For the
    path [battles.jsonl], with no such file, it does not:
    [pd.read_json("battles.jsonl", lines=True)] raises [ValueError], which
    the [except FileNotFoundError] clause does not catch, so
    [SWRankingRouter("gpt4", "llama", "battles.jsonl", "embeddings.npy", 2)]
    raises [ValueError] after the one attempt on the dataset path. *)
Theorem init_missing_jsonl_dataset :
  files toy_files !! "battles.jsonl" = None
  ∧ endswith "battles.jsonl" ".json" = false
  ∧ SWRankingRouter.__init__ toy_elo toy_tiers toy_decode toy_decode toy_npy_decode
      "gpt4" "llama" "battles.jsonl" "embeddings.npy" 2 toy_files
    = (Raise ValueError, mkFS (files toy_files) ["battles.jsonl"]).
Proof. split_and!; reflexivity. Qed.

(** ** Calls of the similarity-weighted router *)

Create HintDb frame.

Lemma keeps_fst_ret {S W A} (a : A) : keeps_fst (mret a : M (S * W) A).
Proof. by intros o w. Qed.

Lemma keeps_fst_raise {S W A} (e : exn) : keeps_fst (raise e : M (S * W) A).
Proof. by intros o w. Qed.

Lemma keeps_fst_bind {S W A B} (m : M (S * W) A) (k : A → M (S * W) B) :
  keeps_fst m → (∀ a, keeps_fst (k a)) → keeps_fst (m ≫= k).
Proof.
  intros Hm Hk o w. rewrite bind_run. specialize (Hm o w).
  destruct (m (o, w)) as [[a|e] [o' w']]; simpl in *; subst; [apply Hk|done].
Qed.

Lemma keeps_fst_gets {S W A} (f : S * W → A) : keeps_fst (gets f).
Proof. by intros o w. Qed.

Lemma keeps_fst_on_snd {S W A} (m : M W A) : keeps_fst (on_snd m : M (S * W) A).
Proof. intros o w. simpl. by destruct (m w). Qed.

Lemma keeps_fst_getitem {S W} `{Countable K} {V} (d : gmap K V) (k : K) :
  keeps_fst (getitem d k : M (S * W) V).
Proof. intros o w. rewrite getitem_run. by destruct (d !! k). Qed.

Lemma keeps_fst_np_max {S W} (a : list float) :
  keeps_fst (np_max a : M (S * W) float).
Proof. intros o w. by destruct a. Qed.

Lemma keeps_fst_dot {S W} (a b : list float) :
  keeps_fst (SWRankingRouter.dot a b : M (S * W) float).
Proof. intros o w. unfold SWRankingRouter.dot. by case_bool_decide. Qed.

#[local] Hint Resolve keeps_fst_ret keeps_fst_raise keeps_fst_gets
  keeps_fst_on_snd keeps_fst_getitem keeps_fst_np_max keeps_fst_dot : frame.

Lemma keeps_fst_mapM {S W A B} (f : A → M (S * W) B) (l : list A) :
  (∀ a, keeps_fst (f a)) → keeps_fst (mapM f l).
Proof.
  intros Hf. induction l as [|x l IH]; cbn [mapM]; [apply keeps_fst_ret|].
  apply keeps_fst_bind; [done|]. intros y.
  apply keeps_fst_bind; [done|]. intros k. apply keeps_fst_ret.
Qed.

Lemma keeps_fst_get_weightings {S W} (similarities : list float) :
  keeps_fst (SWRankingRouter.get_weightings similarities : M (S * W) (list float)).
Proof.
  unfold SWRankingRouter.get_weightings.
  apply keeps_fst_bind; auto with frame.
Qed.

Lemma mapM_dot {S} (rows : list (list float)) (e : list float) (st : S) :
  Forall (λ row, length row = length e) rows →
  mapM (λ row, SWRankingRouter.dot row e) rows st
  = (Ok ((λ row, sum (zip_with mul row e)) <$> rows), st).
Proof.
  induction 1 as [|row rows Hrow _ IH]; [done|].
  cbn [mapM]. rewrite bind_run. unfold SWRankingRouter.dot at 1.
  rewrite bool_decide_eq_true_2 by done.
  by rewrite mret_run, bind_run, IH.
Qed.

Lemma mapM_dot_mismatch {S} (rows : list (list float)) (e : list float) (st : S) :
  ¬ Forall (λ row, length row = length e) rows →
  mapM (λ row, SWRankingRouter.dot row e) rows st = (Raise ValueError, st).
Proof.
  induction rows as [|row rows IH]; intros Hdim; [by destruct Hdim|].
  cbn [mapM]. rewrite bind_run. unfold SWRankingRouter.dot at 1.
  case_bool_decide as Hrow; [|done].
  rewrite mret_run, bind_run, IH; [done|].
  intros Hrows. apply Hdim. by constructor.
Qed.

Lemma cosine_similarities (rows : list (list float)) (e : list float) :
  zip_with div ((λ row, sum (zip_with mul row e)) <$> rows)
    (map (λ n, n * SWRankingRouter.norm e)%float (map SWRankingRouter.norm rows))
  = (λ row, cosine row e) <$> rows.
Proof.
  induction rows as [|row rows IH]; [done|].
  rewrite !fmap_cons, <- IH. done.
Qed.

Lemma get_weightings_run {S} (x : float) (l : list float) (st : S) :
  SWRankingRouter.get_weightings (x :: l) st
  = (Ok ((λ s, Fin 10 * pow10 (s / foldl max2 x l))%float <$> (x :: l)), st).
Proof. done. Qed.

Section Estimation.
Variable compute_elo_mle_with_tie :
  DataFrame → option (list float) → gmap label float.
Context {W : Type}.
Variable embeddings_create : list string → string → M W (list float).

Let estimate :=
  SWRankingRouter.calculate_strong_win_rate compute_elo_mle_with_tie embeddings_create.

(** A call never writes the router object. *)
Lemma estimate_keeps_self (prompt : string) : keeps_fst (estimate prompt).
Proof.
  unfold estimate, SWRankingRouter.calculate_strong_win_rate,
    SWRankingRouter.attr, SWRankingRouter.external.
  repeat (apply keeps_fst_bind; [auto using keeps_fst_mapM, keeps_fst_get_weightings with frame|intros ?]).
  auto with frame.
Qed.

Lemma serve_keeps_self (prompts : list string) (o : SWRankingRouter.self) (w : W) :
  (serve estimate prompts (o, w)).2.1 = o.
Proof.
  revert o w. induction prompts as [|p ps IH]; intros o w; [done|].
  cbn [serve]. pose proof (estimate_keeps_self p o w) as Hp.
  destruct (estimate p (o, w)) as [r [o' w']]. simpl in Hp. subst o'.
  specialize (IH o w'). by destruct (serve estimate ps (o, w')).
Qed.

(** The value of a call whose steps all succeed. *)
Lemma estimate_value (prompt : string) (o : SWRankingRouter.self) (w w' : W)
    (e : list float) (weak_tier strong_tier : Z) (weak_score strong_score : float) :
  embeddings_create [prompt] (SWRankingRouter.embedding_model o) w = (Ok e, w') →
  SWRankingRouter.arena_conv_embedding o ≠ [] →
  Forall (λ row, length row = length e) (SWRankingRouter.arena_conv_embedding o) →
  SWRankingRouter.model2tier o !! LStr (SWRankingRouter.weak_model o) = Some weak_tier →
  SWRankingRouter.model2tier o !! LStr (SWRankingRouter.strong_model o) = Some strong_tier →
  let res := compute_elo_mle_with_tie (SWRankingRouter.arena_df o)
               (Some (battle_weights (SWRankingRouter.arena_conv_embedding o) e)) in
  res !! LInt weak_tier = Some weak_score →
  res !! LInt strong_tier = Some strong_score →
  estimate prompt (o, w)
  = (Ok (Fin 1 - Fin 1 / (Fin 1 + pow10 ((strong_score - weak_score) / Fin 400)))%float,
     (o, w')).
Proof.
  intros Hemb Hne Hdim Hwt Hst res Hws Hss.
  unfold estimate, SWRankingRouter.calculate_strong_win_rate,
    SWRankingRouter.attr, SWRankingRouter.external, gets.
  rewrite bind_run. cbn [fst snd].
  rewrite bind_run. unfold on_snd at 1. rewrite Hemb.
  rewrite bind_run, bind_run, (mapM_dot _ _ _ Hdim), cosine_similarities.
  rewrite bind_run. cbn [fst snd].
  destruct (SWRankingRouter.arena_conv_embedding o) as [|row rows] eqn:Hrows;
    [done|].
  rewrite fmap_cons, get_weightings_run.
  assert (((λ s, Fin 10 * pow10 (s / foldl max2 (cosine row e)
                  ((λ row0, cosine row0 e) <$> rows)))%float
            <$> cosine row e :: ((λ row0, cosine row0 e) <$> rows))
          = battle_weights (row :: rows) e) as -> by done.
  rewrite !bind_run. cbn [fst snd].
  rewrite getitem_run, Hwt, !bind_run, getitem_run.
  fold res. rewrite Hws, !bind_run. cbn [fst snd].
  rewrite getitem_run, Hst, bind_run, getitem_run. fold res. by rewrite Hss.
Qed.

(** Conversely, a call that returns went through every step. *)
Lemma estimate_ok_inv (prompt : string) (o : SWRankingRouter.self) (w : W)
    (v : float) (st' : SWRankingRouter.self * W) :
  estimate prompt (o, w) = (Ok v, st') →
  ∃ e w' weak_tier strong_tier weak_score strong_score,
    embeddings_create [prompt] (SWRankingRouter.embedding_model o) w = (Ok e, w')
    ∧ SWRankingRouter.model2tier o !! LStr (SWRankingRouter.weak_model o)
      = Some weak_tier
    ∧ SWRankingRouter.model2tier o !! LStr (SWRankingRouter.strong_model o)
      = Some strong_tier
    ∧ (let res := compute_elo_mle_with_tie (SWRankingRouter.arena_df o)
                    (Some (battle_weights (SWRankingRouter.arena_conv_embedding o) e)) in
       res !! LInt weak_tier = Some weak_score
       ∧ res !! LInt strong_tier = Some strong_score)
    ∧ v = (Fin 1 - Fin 1 / (Fin 1 + pow10 ((strong_score - weak_score) / Fin 400)))%float
    ∧ st' = (o, w').
Proof.
  intros Hrun.
  destruct (embeddings_create [prompt] (SWRankingRouter.embedding_model o) w)
    as [[e|err] w'] eqn:Hemb.
  2:{ unfold estimate, SWRankingRouter.calculate_strong_win_rate,
        SWRankingRouter.attr, SWRankingRouter.external, gets in Hrun.
      rewrite bind_run in Hrun. cbn [fst snd] in Hrun.
      rewrite bind_run in Hrun. unfold on_snd at 1 in Hrun.
      by rewrite Hemb in Hrun. }
  destruct (decide (Forall (λ row, length row = length e)
                      (SWRankingRouter.arena_conv_embedding o))) as [Hdim|Hdim].
  2:{ unfold estimate, SWRankingRouter.calculate_strong_win_rate,
        SWRankingRouter.attr, SWRankingRouter.external, gets in Hrun.
      rewrite bind_run in Hrun. cbn [fst snd] in Hrun.
      rewrite bind_run in Hrun. unfold on_snd at 1 in Hrun. rewrite Hemb in Hrun.
      rewrite bind_run, bind_run in Hrun. cbn [fst snd] in Hrun.
      by rewrite (mapM_dot_mismatch _ _ _ Hdim) in Hrun. }
  destruct (decide (SWRankingRouter.arena_conv_embedding o = [])) as [Hnil|Hne].
  { unfold estimate, SWRankingRouter.calculate_strong_win_rate,
      SWRankingRouter.attr, SWRankingRouter.external, gets in Hrun.
    rewrite bind_run in Hrun. cbn [fst snd] in Hrun.
    rewrite bind_run in Hrun. unfold on_snd at 1 in Hrun. rewrite Hemb in Hrun.
    rewrite bind_run, bind_run in Hrun. cbn [fst snd] in Hrun.
    by rewrite Hnil in Hrun. }
  set (res := compute_elo_mle_with_tie (SWRankingRouter.arena_df o)
                (Some (battle_weights (SWRankingRouter.arena_conv_embedding o) e))).
  destruct (SWRankingRouter.model2tier o !! LStr (SWRankingRouter.weak_model o))
    as [wt|] eqn:Hwt;
  [destruct (res !! LInt wt) as [ws|] eqn:Hws;
   [destruct (SWRankingRouter.model2tier o !! LStr (SWRankingRouter.strong_model o))
      as [stt|] eqn:Hst;
    [destruct (res !! LInt stt) as [ss|] eqn:Hss|]|]|].
  { rewrite (estimate_value prompt o w w' e wt stt ws ss) in Hrun by done.
    injection Hrun as <- <-. by exists e, w', wt, stt, ws, ss. }
  all: exfalso; revert Hrun;
    unfold estimate, SWRankingRouter.calculate_strong_win_rate,
      SWRankingRouter.attr, SWRankingRouter.external, gets;
    rewrite bind_run; cbn [fst snd];
    rewrite bind_run; unfold on_snd at 1; rewrite Hemb;
    rewrite bind_run, bind_run, (mapM_dot _ _ _ Hdim), cosine_similarities;
    rewrite bind_run; cbn [fst snd];
    destruct (SWRankingRouter.arena_conv_embedding o) as [|row rows] eqn:Hrows;
      [done|];
    rewrite fmap_cons, get_weightings_run;
    change ((λ s, Fin 10 * pow10 (s / foldl max2 (cosine row e)
                  ((λ row0, cosine row0 e) <$> rows)))%float
            <$> cosine row e :: ((λ row0, cosine row0 e) <$> rows))
      with (battle_weights (row :: rows) e);
    rewrite !bind_run; cbn [fst snd];
    rewrite getitem_run, Hwt; try done;
    rewrite !bind_run, getitem_run; fold res; rewrite Hws; try done;
    rewrite !bind_run; cbn [fst snd];
    rewrite getitem_run, Hst; try done;
    rewrite bind_run, getitem_run; fold res; by rewrite Hss.
Qed.

End Estimation.

(** ** Win rates *)

Lemma winrate_Fin (strong_score weak_score : R) :
  (Fin 1 - Fin 1 / (Fin 1 + pow10 ((Fin strong_score - Fin weak_score) / Fin 400)))%float
  = Fin (elo_strong_winrate strong_score weak_score).
Proof.
  unfold elo_strong_winrate, sub, opp, add.
  rewrite div_Fin by lra. cbn [pow10].
  pose proof (Rpower10_pos ((strong_score + - weak_score) / 400)).
  rewrite div_Fin by lra. done.
Qed.

(** C7. On a three-class classifier the BERT router calls the classifier
    once, on the tokenized prompt, and returns one minus the sum of the
    softmax probabilities of classes 1 and 2. *)
Theorem bert_three_class {S tokens} (tokenizer : string → M S tokens)
    (model : tokens → M S (list float)) (prompt : string) (s s1 s2 : S)
    (calls : list tokens) (inputs : tokens) (l0 l1 l2 : R) :
  tokenizer prompt s = (Ok inputs, s1) →
  model inputs s1 = (Ok [Fin l0; Fin l1; Fin l2], s2) →
  let e := Rtrigo_def.exp in
  let total := (e l0 + e l1 + e l2)%R in
  BERTRouter.calculate_strong_win_rate
    (λ p, on_fst (tokenizer p)) (counted model) prompt (s, calls)
  = (Ok (Fin (1 - (e l1 / total + e l2 / total))), (s2, calls ++ [inputs])).
Proof.
  intros Htok Hmodel e total.
  rewrite (bert_value _ _ prompt (s, calls) (s1, calls) (s2, calls ++ [inputs])
             inputs [l0; l1; l2]); [|done|..].
  - do 3 f_equal.
    assert (Rsum (Rtrigo_def.exp <$> [l0; l1; l2]) = total) as Htotal
      by (unfold Rsum, total, e; simpl; lra).
    unfold softmax. rewrite Htotal. unfold last_n, Rsum. simpl. fold e. lra.
  - simpl. by rewrite Htok.
  - simpl. by rewrite Hmodel.
Qed.

Lemma bert_three_class_witness :
  let e := Rtrigo_def.exp in
  let total := (e 2 + e 0 + e 1)%R in
  BERTRouter.calculate_strong_win_rate
    (λ p, on_fst (toy_tokenizer p)) (counted toy_classifier) "hello" (tt, [])
  = (Ok (Fin (1 - (e 0 / total + e 1 / total))%R), (tt, [] ++ ["hello"])).
Proof.
  exact (bert_three_class toy_tokenizer toy_classifier "hello" tt tt tt []
           "hello" 2 0 1 eq_refl eq_refl).
Defined.

Section Lifetime.
Variable compute_elo_mle_with_tie :
  DataFrame → option (list float) → gmap label float.
Variable compute_tiers : gmap label float → Z → gmap label Z.
Variables json_array_decode json_lines_decode : string → DataFrame.
Variable npy_decode : string → list (list float).
Context {W : Type}.
Variable embeddings_create : list string → string → M W (list float).

Let estimate :=
  SWRankingRouter.calculate_strong_win_rate compute_elo_mle_with_tie embeddings_create.

(** C4. A call of the similarity-weighted estimator that returns has read
    the ratings of the tiers of the weak and of the strong model from the
    refit (weighted by the similarity weights of the prompt) and returns
    [1 - 1 / (1 + 10^((strong - weak) / 400))] for them; and when the
    embedding request succeeds, the stored embeddings have the dimension of
    the prompt embedding and the refit rates both tiers, the call returns
    that value. *)
Theorem sw_elo_formula (prompt : string) (o : SWRankingRouter.self) (w : W) :
  (∀ v st', estimate prompt (o, w) = (Ok v, st') →
     ∃ e w' weak_tier strong_tier weak_score strong_score,
       embeddings_create [prompt] (SWRankingRouter.embedding_model o) w = (Ok e, w')
       ∧ SWRankingRouter.model2tier o !! LStr (SWRankingRouter.weak_model o)
         = Some weak_tier
       ∧ SWRankingRouter.model2tier o !! LStr (SWRankingRouter.strong_model o)
         = Some strong_tier
       ∧ (let res := compute_elo_mle_with_tie (SWRankingRouter.arena_df o)
                       (Some (battle_weights
                                (SWRankingRouter.arena_conv_embedding o) e)) in
          res !! LInt weak_tier = Some weak_score
          ∧ res !! LInt strong_tier = Some strong_score)
       ∧ let weak_winrate :=
           (Fin 1 / (Fin 1 + pow10 ((strong_score - weak_score) / Fin 400)))%float in
         v = (Fin 1 - weak_winrate)%float)
  ∧ (∀ e w' weak_tier strong_tier (weak_rating strong_rating : R),
       embeddings_create [prompt] (SWRankingRouter.embedding_model o) w = (Ok e, w') →
       SWRankingRouter.arena_conv_embedding o ≠ [] →
       Forall (λ row, length row = length e) (SWRankingRouter.arena_conv_embedding o) →
       SWRankingRouter.model2tier o !! LStr (SWRankingRouter.weak_model o)
       = Some weak_tier →
       SWRankingRouter.model2tier o !! LStr (SWRankingRouter.strong_model o)
       = Some strong_tier →
       let res := compute_elo_mle_with_tie (SWRankingRouter.arena_df o)
                    (Some (battle_weights (SWRankingRouter.arena_conv_embedding o) e)) in
       res !! LInt weak_tier = Some (Fin weak_rating) →
       res !! LInt strong_tier = Some (Fin strong_rating) →
       estimate prompt (o, w)
       = (Ok (Fin (1 - 1 / (1 + Rpower 10 ((strong_rating - weak_rating) / 400)))),
          (o, w'))).
Proof.
  split.
  - intros v st' Hrun.
    destruct (estimate_ok_inv compute_elo_mle_with_tie embeddings_create
                prompt o w v st' Hrun)
      as (e & w' & wt & stt & ws & ss & Hemb & Hwt & Hst & Hres & -> & _).
    by exists e, w', wt, stt, ws, ss.
  - intros e w' wt stt wr sr Hemb Hne Hdim Hwt Hst res Hws Hss. unfold estimate.
    rewrite (estimate_value compute_elo_mle_with_tie embeddings_create prompt o w w' e
               wt stt (Fin wr) (Fin sr)); try done.
    by rewrite winrate_Fin.
Qed.

(** C8. A router that the constructor returned holds the loaded dataset
    with both participant columns relabelled to tier numbers, and no call of
    the estimator, returning or raising, changes the router object: after
    any sequence of calls the dataset, the embedding matrix and the tier
    mapping are the ones the constructor stored. *)
Theorem dataset_frozen_after_construction
    (strong_model weak_model arena_df_path arena_embedding_path : string)
    (num_tiers : Z) (fs fs' : FS) (o : SWRankingRouter.self) :
  SWRankingRouter.__init__ compute_elo_mle_with_tie compute_tiers
    json_array_decode json_lines_decode npy_decode
    strong_model weak_model arena_df_path arena_embedding_path num_tiers fs
  = (Ok o, fs') →
  (∃ contents,
     files fs !! arena_df_path = Some contents
     ∧ let df := if endswith arena_df_path ".json"
                 then json_array_decode contents
                 else json_lines_decode contents in
       relabelled (SWRankingRouter.model2tier o)
         (model_a df) (model_a (SWRankingRouter.arena_df o))
       ∧ relabelled (SWRankingRouter.model2tier o)
           (model_b df) (model_b (SWRankingRouter.arena_df o))
       ∧ outcome (SWRankingRouter.arena_df o) = outcome df)
  ∧ (∀ prompt w, (estimate prompt (o, w)).2.1 = o)
  ∧ (∀ prompts w,
       let o' := (serve estimate prompts (o, w)).2.1 in
       SWRankingRouter.arena_df o' = SWRankingRouter.arena_df o
       ∧ SWRankingRouter.arena_conv_embedding o'
         = SWRankingRouter.arena_conv_embedding o
       ∧ SWRankingRouter.model2tier o' = SWRankingRouter.model2tier o).
Proof.
  intros Hinit. split_and!.
  - destruct (files fs !! arena_df_path) as [c1|] eqn:Hdf.
    2:{ by rewrite (init_missing_dataset _ _ _ _ _ _ _ _ _ _ fs Hdf) in Hinit. }
    destruct (files fs !! arena_embedding_path) as [c2|] eqn:Hemb.
    2:{ by rewrite (init_missing_embedding _ _ _ _ _ _ _ _ _ _ fs c1 Hdf Hemb)
          in Hinit. }
    exists c1. split; [done|].
    destruct (init_both_present compute_elo_mle_with_tie compute_tiers
                json_array_decode json_lines_decode npy_decode
                strong_model weak_model arena_df_path arena_embedding_path
                num_tiers fs c1 c2 Hdf Hemb) as (_ & _ & Ho).
    rewrite Hinit in Ho. destruct (Ho o eq_refl) as (Heq & Ha & Hb & Hout).
    rewrite Heq. by simpl.
  - intros prompt w. apply estimate_keeps_self.
  - intros prompts w o'. unfold o', estimate. by rewrite serve_keeps_self.
Qed.

End Lifetime.

Lemma sw_elo_formula_witness :
  SWRankingRouter.calculate_strong_win_rate toy_elo toy_embed "hello" (toy_router, tt)
  = (Ok (Fin (1 - 1 / (1 + Rpower 10 ((1200 - 1000) / 400)))), (toy_router, tt)).
Proof.
  apply (proj2 (sw_elo_formula toy_elo toy_embed "hello" toy_router tt)
           [Fin 1; Fin 0] tt 1%Z 0%Z 1000%R 1200%R).
  - reflexivity.
  - discriminate.
  - repeat constructor.
  - reflexivity.
  - reflexivity.
  - reflexivity.
  - reflexivity.
Defined.

Lemma toy_construction :
  SWRankingRouter.__init__ toy_elo toy_tiers toy_decode toy_decode toy_npy_decode
    "gpt4" "llama" "battles.json" "embeddings.npy" 2 toy_files
  = (Ok toy_router,
     mkFS (files toy_files) ["battles.json"; "embeddings.npy"]).
Proof. reflexivity. Qed.

Lemma dataset_frozen_after_construction_witness :
  (∃ contents,
     files toy_files !! "battles.json" = Some contents
     ∧ relabelled (SWRankingRouter.model2tier toy_router)
         (model_a (toy_decode contents))
         (model_a (SWRankingRouter.arena_df toy_router)))
  ∧ ∀ prompts,
      SWRankingRouter.arena_df
        (serve (SWRankingRouter.calculate_strong_win_rate toy_elo toy_embed)
           prompts (toy_router, tt)).2.1
      = SWRankingRouter.arena_df toy_router.
Proof.
  pose proof (dataset_frozen_after_construction toy_elo toy_tiers toy_decode
                toy_decode toy_npy_decode toy_embed "gpt4" "llama" "battles.json"
                "embeddings.npy" 2 toy_files _ toy_router toy_construction)
    as (Hload & _ & Hcalls).
  split.
  - destruct Hload as (contents & Hfile & Ha & _). exists contents. split; [done|].
    revert Ha. by case (endswith "battles.json" ".json").
  - intros prompts. apply (Hcalls prompts tt).
Defined.

(** ** The BERT router in float32 *)

Lemma Z_within_4 (d : Z) :
  (-4 ≤ d ≤ 4)%Z → d ∈ [-4; -3; -2; -1; 0; 1; 2; 3; 4]%Z.
Proof. intros Hd. rewrite !elem_of_cons, elem_of_nil. lia. Qed.

(** C2. The win rate is meant to be a number between 0 and 1.  On the
    float32 logits [-30, 5.25, 0] the BERT router returns [-2^-23], a
    negative number.  The softmax probabilities of the last two classes,
    each rounded, add up to [1 + 2^-23], and one minus that is negative.
    The arguments of the exponential are [-30 - 5.25], [5.25 - 5.25] and
    [0 - 5.25]; the result is the same for every exponential that returns 1
    at 0 and is within four units in the last place of the nearest float32
    at [-5.25] and at [-35.25]. *)
Theorem bert_float32_negative {S tokens} (tokenizer : string → M S tokens)
    (model : tokens → M S (list Binary32.float32))
    (np_exp : Binary32.float32 → Binary32.float32)
    (pairwise_sum : list Binary32.float32 → Binary32.float32)
    (prompt : string) (s s1 s2 : S) (inputs : tokens) (d1 d2 : Z) :
  tokenizer prompt s = (Ok inputs, s1) →
  model inputs s1
  = (Ok [Binary32.of_Z (-30) 0; Binary32.of_Z 21 (-2); Binary32.of_Z 0 0], s2) →
  np_exp (Binary32.of_Z 0 0) = Binary32.one →
  (-4 ≤ d1 ≤ 4)%Z →
  np_exp (Binary32.of_Z (-21) (-2)) = Binary32.of_Z (11268960 + d1) (-31) →
  (-4 ≤ d2 ≤ 4)%Z →
  np_exp (Binary32.of_Z (-141) (-2)) = Binary32.of_Z (9275540 + d2) (-74) →
  Binary32.calculate_strong_win_rate tokenizer model np_exp pairwise_sum prompt s
  = (Ok (Binary32.of_Z (-1) (-23)), s2)
  ∧ Binary32.ltb (Binary32.of_Z (-1) (-23)) Binary32.zero = true.
Proof.
  intros Htok Hmodel H0 Hd1 H1 Hd2 H2. split; [|reflexivity].
  unfold Binary32.calculate_strong_win_rate.
  rewrite bind_run, Htok, bind_run, Hmodel, bind_run.
  assert (Binary32.np_max
            [Binary32.of_Z (-30) 0; Binary32.of_Z 21 (-2); Binary32.of_Z 0 0] s2
          = (Ok (Binary32.of_Z 21 (-2)), s2)) as -> by reflexivity.
  rewrite mret_run. do 2 f_equal. cbn [map].
  assert (Binary32.sub (Binary32.of_Z (-30) 0) (Binary32.of_Z 21 (-2))
          = Binary32.of_Z (-141) (-2)) as -> by reflexivity.
  assert (Binary32.sub (Binary32.of_Z 21 (-2)) (Binary32.of_Z 21 (-2))
          = Binary32.of_Z 0 0) as -> by reflexivity.
  assert (Binary32.sub (Binary32.of_Z 0 0) (Binary32.of_Z 21 (-2))
          = Binary32.of_Z (-21) (-2)) as -> by reflexivity.
  rewrite H0, H1, H2.
  apply Z_within_4 in Hd1, Hd2.
  repeat (apply elem_of_cons in Hd1 as [->|Hd1]);
    try (by apply elem_of_nil in Hd1);
    repeat (apply elem_of_cons in Hd2 as [->|Hd2]);
    try (by apply elem_of_nil in Hd2);
    by vm_compute.
Qed.

Lemma bert_float32_negative_witness :
  Binary32.calculate_strong_win_rate toy_tokenizer toy_classifier32 toy_np_exp
    (λ _, Binary32.zero) "hello" tt
  = (Ok (Binary32.of_Z (-1) (-23)), tt)
  ∧ Binary32.ltb (Binary32.of_Z (-1) (-23)) Binary32.zero = true.
Proof.
  apply (bert_float32_negative toy_tokenizer toy_classifier32 toy_np_exp
           (λ _, Binary32.zero) "hello" tt tt tt "hello" 0 0);
    [reflexivity|reflexivity|reflexivity|lia|reflexivity|lia|reflexivity].
Defined.

(** ** Random baseline *)

(** C9. The random router ignores its prompt: from the same generator state
    two prompts give the same value and the same next state, and the value
    is a finite number in [0, 1]. *)
Theorem random_ignores_prompt {rng} (random_random : rng → R * rng)
    (Hrange : ∀ g, (0 <= (random_random g).1 < 1)%R)
    (p1 p2 : string) (g : rng) :
  RandomRouter.calculate_strong_win_rate random_random p1 g
    = RandomRouter.calculate_strong_win_rate random_random p2 g
  ∧ ∃ v g', RandomRouter.calculate_strong_win_rate random_random p1 g
              = (Ok (Fin v), g')
            ∧ (0 <= v <= 1)%R.
Proof.
  split; [done|].
  unfold RandomRouter.calculate_strong_win_rate, RandomRouter.random_uniform.
  specialize (Hrange g). destruct (random_random g) as [u g']; simpl in *.
  eexists _, _. split; [reflexivity|]. lra.
Qed.

Lemma lcg_range (g : Z) : (0 <= (lcg g).1 < 1)%R.
Proof.
  unfold lcg; simpl.
  pose proof (Z.mod_pos_bound g 8 ltac:(lia)) as [H0 H8].
  apply IZR_le in H0. apply IZR_lt in H8.
  split.
  - apply Rmult_le_pos; lra.
  - apply Rmult_lt_reg_r with 8%R; [lra|]. field_simplify. lra.
Qed.

Lemma random_ignores_prompt_witness :
  RandomRouter.calculate_strong_win_rate lcg "a" 5%Z
    = RandomRouter.calculate_strong_win_rate lcg "b" 5%Z
  ∧ ∃ v g', RandomRouter.calculate_strong_win_rate lcg "a" 5%Z = (Ok (Fin v), g')
            ∧ (0 <= v <= 1)%R.
Proof. exact (random_ignores_prompt lcg lcg_range "a" "b" 5%Z). Defined.

Example random_router_run :
  RandomRouter.calculate_strong_win_rate lcg "a" 5%Z
  = (Ok (Fin (0 + (1 + - 0) * (5 / 8))), 4%Z).
Proof. reflexivity. Qed.

(** * Further properties of the module *)

(** ** Thresholds *)

Lemma ge_lower_threshold (w : float) (t t' : R) :
  (t' <= t)%R → (w >=? Fin t)%float = true → (w >=? Fin t')%float = true.
Proof.
  intros Ht. destruct w as [x| | |]; try done.
  rewrite !ge_Fin. lra.
Qed.

Lemma route_run {S} (est : string → M S float) (prompt : string)
    (threshold : float) (s : S) :
  Router.route est prompt threshold s
  = match est prompt s with
    | (Ok w, s') => (Ok (if (w >=? threshold)%float then strong else weak), s')
    | (Raise e, s') => (Raise e, s')
    end.
Proof.
  unfold Router.route. rewrite bind_run.
  destruct (est prompt s) as [[w|e] s']; [|done].
  by destruct (w >=? threshold)%float.
Qed.

(** X1. Lowering the threshold never turns a strong decision into a weak
    one: if [route] answers strong at a threshold, it gives the same result,
    store included, at every lower threshold. *)
Theorem route_lower_threshold_keeps_strong {S} (est : string → M S float)
    (prompt : string) (t t' : R) (s : S) :
  (t' <= t)%R →
  (Router.route est prompt (Fin t) s).1 = Ok strong →
  Router.route est prompt (Fin t') s = Router.route est prompt (Fin t) s.
Proof.
  intros Ht. rewrite !route_run.
  destruct (est prompt s) as [[w|e] s']; [|done]. simpl.
  destruct (w >=? Fin t)%float eqn:Hw; [|done]. intros _.
  by rewrite (ge_lower_threshold w t t' Ht Hw).
Qed.

Lemma route_lower_threshold_keeps_strong_witness :
  (1 / 4 <= 1 / 2)%R
  ∧ Router.route (λ _, mret (Fin (1 / 2))) "hello" (Fin (1 / 4)) tt
    = Router.route (λ _, mret (Fin (1 / 2))) "hello" (Fin (1 / 2)) tt.
Proof.
  assert (H1 : (1 / 4 <= 1 / 2)%R) by lra.
  assert (H2 : (Router.route (λ _, mret (Fin (1 / 2))) "hello" (Fin (1 / 2)) tt).1
               = Ok strong).
  { rewrite route_run, mret_run.
    assert ((Fin (1 / 2) >=? Fin (1 / 2))%float = true) as ->; [|done].
    apply ge_Fin. lra. }
  exact (conj H1
           (route_lower_threshold_keeps_strong (λ _, mret (Fin (1 / 2))) "hello"
              (1 / 2) (1 / 4) tt H1 H2)).
Defined.

(** X2. A [nan] estimate is routed to the weak model at every threshold, a
    [nan] threshold routes every estimate to the weak model, and a threshold
    of minus infinity routes every estimate but [nan] to the strong model. *)
Theorem route_nan_and_infinite_thresholds {S} (est : string → M S float)
    (prompt : string) (s s' : S) (w : float) :
  est prompt s = (Ok w, s') →
  Router.route est prompt NaN s = (Ok weak, s')
  ∧ (w = NaN → ∀ t, Router.route est prompt t s = (Ok weak, s'))
  ∧ (w ≠ NaN → Router.route est prompt NInf s = (Ok strong, s')).
Proof.
  intros Hest. split_and!.
  - rewrite route_run, Hest. by destruct w.
  - intros -> t. by rewrite route_run, Hest.
  - intros Hw. rewrite route_run, Hest. by destruct w.
Qed.

Lemma route_nan_and_infinite_thresholds_witness :
  Router.route (λ _, mret NaN) "hello" NaN tt = (Ok weak, tt)
  ∧ (NaN = NaN → ∀ t, Router.route (λ _, mret NaN) "hello" t tt = (Ok weak, tt))
  ∧ (NaN ≠ NaN → Router.route (λ _, mret NaN) "hello" NInf tt = (Ok strong, tt)).
Proof.
  exact (route_nan_and_infinite_thresholds (λ _, mret NaN) "hello" tt tt NaN
           eq_refl).
Defined.

(** ** The decorator and the registry *)

(** X3. The decorator [no_parallel] sets [NO_PARALLEL] to true on the class it
    is given and leaves every other attribute as it was; applying it twice is
    the same as applying it once; a subclass that defines nothing of its own
    inherits the flag from a decorated class. *)
Theorem no_parallel_decorator (name : string) (base : pyclass)
    (attrs : gmap string bool) :
  let c := ClassObj name base attrs in
  getattr (no_parallel c) "NO_PARALLEL" = Some true
  ∧ (∀ a, a ≠ "NO_PARALLEL" → getattr (no_parallel c) a = getattr c a)
  ∧ no_parallel (no_parallel c) = no_parallel c
  ∧ (∀ sub, getattr (ClassObj sub (no_parallel c) ∅) "NO_PARALLEL" = Some true)
  ∧ (∀ sub, getattr (ClassObj sub c ∅) "NO_PARALLEL" = getattr c "NO_PARALLEL").
Proof.
  intros c. unfold c, no_parallel, setattr. split_and!.
  - cbn [getattr]. by rewrite lookup_insert_eq.
  - intros a Ha. cbn [getattr]. by rewrite lookup_insert_ne.
  - by rewrite insert_insert_eq.
  - intros sub. cbn [getattr]. by rewrite lookup_empty, lookup_insert_eq.
  - intros sub. cbn [getattr]. by rewrite lookup_empty.
Qed.

Lemma NAME_TO_CLS_items :
  NAME_TO_CLS
  = [ (id_RandomRouter, "random");
      (id_MatrixFactorizationRouter, "matrix_factorization");
      (id_CausalLLMRouter, "causal_llm");
      (id_BERTRouter, "bert");
      (id_SWRankingRouter, "sw_ranking") ].
Proof. reflexivity. Qed.

Lemma ROUTER_CLS_items_lookup (name : string) (i : class_id) :
  dict_get ROUTER_CLS_items name = Some i ↔ dict_get NAME_TO_CLS i = Some name.
Proof.
  rewrite NAME_TO_CLS_items. unfold ROUTER_CLS_items. cbn [dict_get]. split; intros H.
  - repeat match type of H with
           | context [decide (?a = name)] =>
               destruct (decide (a = name)) as [<-|?];
               [injection H as <-; reflexivity|]
           end.
    done.
  - repeat match type of H with
           | context [decide (?a = i)] =>
               destruct (decide (a = i)) as [<-|?];
               [injection H as <-; reflexivity|]
           end.
    done.
Qed.

(** X4. The registry and its inverse agree.  [ROUTER_CLS] lists five names,
    each with the class of this module that the source gives it; a class is
    registered under a name exactly when [NAME_TO_CLS] gives that name for
    the class; [__str__] returns the registered name of an object's class,
    and raises [KeyError] for any class that is not registered: a class
    defined outside this module is never registered, whatever it holds. *)
Theorem registry_round_trip {S} (s : S) :
  (∀ name, ROUTER_CLS !! name = i ← dict_get ROUTER_CLS_items name; class_at i)
  ∧ (∀ name i,
       dict_get ROUTER_CLS_items name = Some i ↔ dict_get NAME_TO_CLS i = Some name)
  ∧ (∀ name i,
       dict_get ROUTER_CLS_items name = Some i → __str__ i s = (Ok name, s))
  ∧ (∀ i, (∀ name, dict_get ROUTER_CLS_items name ≠ Some i) →
          __str__ i s = (Raise KeyError, s))
  ∧ (∀ i, length module_classes ≤ i → __str__ i s = (Raise KeyError, s)).
Proof.
  split_and!.
  - intros name. unfold ROUTER_CLS, ROUTER_CLS_items. cbn [dict_get].
    repeat match goal with
           | |- context [decide (?a = name)] =>
               destruct (decide (a = name)) as [<-|?]; [reflexivity|];
               rewrite (lookup_insert_ne _ a name) by done
           end.
    by rewrite lookup_empty.
  - apply ROUTER_CLS_items_lookup.
  - intros name i H. unfold __str__. apply ROUTER_CLS_items_lookup in H.
    by rewrite H.
  - intros i Hi. unfold __str__.
    destruct (dict_get NAME_TO_CLS i) as [name|] eqn:H; [|done].
    apply ROUTER_CLS_items_lookup in H. by destruct (Hi name).
  - intros i Hi. unfold __str__. rewrite NAME_TO_CLS_items. cbn [dict_get].
    cbn [module_classes length] in Hi.
    repeat match goal with
           | |- context [decide (?a = i)] =>
               destruct (decide (a = i)) as [<-|?];
               [unfold id_RandomRouter, id_MatrixFactorizationRouter,
                  id_CausalLLMRouter, id_BERTRouter, id_SWRankingRouter in Hi; lia|]
           end.
    done.
Qed.

(** ** The causal LLM router *)

Section CausalLLM.
Context {raw_config config prompt_format classifier messages : Type}.
Variable RouterModelConfig : raw_config → M FS config.
Variable model_id : config → string.
Variable load_prompt_format : string → M FS prompt_format.
Variable CausalLLMClassifier :
  config → string → Z → prompt_format → string → list string → bool →
  M FS classifier.
Variable to_openai_api_messages : string → string → list string → messages.
Variables (model_config : raw_config) (model_checkpoint_path : string).
Variables (system_message classifier_message : string) (score_threshold : Z).

Let init :=
  CausalLLMRouterObject.__init__ RouterModelConfig model_id load_prompt_format
    CausalLLMClassifier to_openai_api_messages model_config model_checkpoint_path
    system_message classifier_message score_threshold.

(** The part of the constructor that builds the classifier. *)
Let build : M FS classifier :=
  config ← RouterModelConfig model_config;
  prompt_format ← load_prompt_format (model_id config);
  CausalLLMClassifier config model_checkpoint_path score_threshold prompt_format
    "messages" [] true.

Lemma causal_init_run (fs : FS) :
  init fs
  = match build fs with
    | (Raise e, w) => (Raise e, w)
    | (Ok rm, w) =>
        match files w !! system_message with
        | None =>
            (Raise (FileNotFoundError
                      ("No such file or directory: " +:+ system_message)),
             mkFS (files w) (opened w ++ [system_message]))
        | Some c1 =>
            match files w !! classifier_message with
            | None =>
                (Raise (FileNotFoundError
                          ("No such file or directory: " +:+ classifier_message)),
                 mkFS (files w) (opened w ++ [system_message; classifier_message]))
            | Some c2 =>
                (Ok (CausalLLMRouterObject.mkSelf rm (to_openai_api_messages c1 c2)),
                 mkFS (files w) (opened w ++ [system_message; classifier_message]))
            end
        end
    end.
Proof.
  unfold init, build, CausalLLMRouterObject.__init__. rewrite !bind_run.
  destruct (RouterModelConfig model_config fs) as [[cfg|e] w1]; [|done].
  rewrite !bind_run.
  destruct (load_prompt_format (model_id cfg) w1) as [[pf|e] w2]; [|done].
  rewrite !bind_run.
  destruct (CausalLLMClassifier cfg model_checkpoint_path score_threshold pf
              "messages" [] true w2) as [[rm|e] w3]; [|done].
  rewrite bind_run. unfold open_file at 1.
  destruct (files w3 !! system_message) as [c1|]; [|done].
  rewrite bind_run. unfold open_file at 1. cbn [files opened].
  rewrite <- app_assoc.
  by destruct (files w3 !! classifier_message) as [c2|].
Qed.

(** X5. Once the classifier is built, the constructor of the causal LLM
    router fails with [FileNotFoundError] exactly when the system-message
    file or the classifier-message file is missing; a missing system
    message is reported before the classifier message is opened; and when
    the classifier cannot be built, that error is raised and neither
    template file is opened. *)
Theorem causal_init_templates (fs w : FS) :
  (∀ rm, build fs = (Ok rm, w) →
     ((∃ msg, (init fs).1 = Raise (FileNotFoundError msg))
      ↔ files w !! system_message = None ∨ files w !! classifier_message = None)
     ∧ (files w !! system_message = None →
        (init fs).2 = mkFS (files w) (opened w ++ [system_message]))
     ∧ (is_Some (files w !! system_message) →
        (init fs).2
        = mkFS (files w) (opened w ++ [system_message; classifier_message]))
     ∧ (∀ o, (init fs).1 = Ok o → CausalLLMRouterObject.router_model o = rm))
  ∧ (∀ e, build fs = (Raise e, w) → init fs = (Raise e, w)).
Proof.
  split.
  - intros rm Hbuild. rewrite causal_init_run, Hbuild.
    destruct (files w !! system_message) as [c1|] eqn:H1;
      destruct (files w !! classifier_message) as [c2|] eqn:H2; simpl;
      (split_and!;
       [ split; [intros [msg Hmsg]; try done; auto|intros [?|?]; try done; by eexists]
       | intros ?; by try done
       | intros [? ?]; by try done
       | intros o Ho; by try (injection Ho as <-) ]).
  - intros e Hbuild. by rewrite causal_init_run, Hbuild.
Qed.

(** X6. A causal LLM router that the constructor returned sends the
    classifier one request per call, whose [messages] entry is built from the
    contents of the two template files, as they were when the constructor
    read them, and the single prompt; it returns one minus the
    [binary_prob] of the answer, raises [KeyError] when the answer has no
    [binary_prob], and passes on an exception of the classifier. *)
Theorem causal_built_router_request {S} (fs fs' : FS)
    (o : CausalLLMRouterObject.self)
    (call : classifier → gmap string messages → M S (gmap string float)) :
  init fs = (Ok o, fs') →
  ∃ w c1 c2,
    build fs = (Ok (CausalLLMRouterObject.router_model o), w)
    ∧ files w !! system_message = Some c1
    ∧ files w !! classifier_message = Some c2
    ∧ ∀ prompt (s : S) (calls : list (gmap string messages)),
        let input := <["messages" := to_openai_api_messages c1 c2 [prompt]]> ∅ in
        let answer := call (CausalLLMRouterObject.router_model o) input s in
        CausalLLMRouter.calculate_strong_win_rate
          (CausalLLMRouterObject.to_openai_messages o)
          (counted (call (CausalLLMRouterObject.router_model o))) prompt (s, calls)
        = (match answer.1 with
           | Ok output =>
               match output !! "binary_prob" with
               | Some p => Ok (Fin 1 - p)%float
               | None => Raise KeyError
               end
           | Raise e => Raise e
           end, (answer.2, calls ++ [input])).
Proof.
  intros Hinit. rewrite causal_init_run in Hinit.
  destruct (build fs) as [[rm|e] w] eqn:Hbuild; [|done].
  destruct (files w !! system_message) as [c1|] eqn:H1; [|done].
  destruct (files w !! classifier_message) as [c2|] eqn:H2; [|done].
  injection Hinit as <- <-. exists w, c1, c2. split_and!; try done.
  intros prompt s calls input answer.
  unfold CausalLLMRouter.calculate_strong_win_rate. rewrite bind_run.
  cbn [CausalLLMRouterObject.to_openai_messages CausalLLMRouterObject.router_model].
  fold input. unfold counted at 1, answer.
  cbn [CausalLLMRouterObject.router_model].
  destruct (call rm input s) as [[output|e] s']; [|done]. simpl.
  by destruct (output !! "binary_prob").
Qed.

End CausalLLM.

Lemma toy_causal_construction :
  CausalLLMRouterObject.__init__ toy_config toy_model_id toy_prompt_format
    toy_causal_classifier toy_messages "cfg" "ckpt" "system.txt" "classifier.txt"
    CausalLLMRouterObject.default_score_threshold toy_templates
  = (Ok (CausalLLMRouterObject.mkSelf "ckpt"
           (toy_messages "You are a judge." "Score:")),
     mkFS (files toy_templates) ["system.txt"; "classifier.txt"]).
Proof. reflexivity. Qed.

Lemma causal_built_router_request_witness :
  ∃ w c1 c2,
    files w !! "system.txt" = Some c1
    ∧ files w !! "classifier.txt" = Some c2
    ∧ (CausalLLMRouter.calculate_strong_win_rate
         (toy_messages "You are a judge." "Score:")
         (counted (toy_causal_call "ckpt")) "hello" (tt, [])).2.2
      = [] ++ [<["messages" := toy_messages c1 c2 ["hello"]]> ∅].
Proof.
  destruct (causal_built_router_request toy_config toy_model_id toy_prompt_format
              toy_causal_classifier toy_messages "cfg" "ckpt" "system.txt"
              "classifier.txt" CausalLLMRouterObject.default_score_threshold
              toy_templates _ _ toy_causal_call toy_causal_construction)
    as (w & c1 & c2 & _ & H1 & H2 & Hcall).
  exists w, c1, c2. split_and!; try done.
  specialize (Hcall "hello" tt []). simpl in Hcall.
  change (CausalLLMRouterObject.to_openai_messages _)
    with (toy_messages "You are a judge." "Score:") in Hcall.
  change (CausalLLMRouterObject.router_model _) with "ckpt" in Hcall.
  by rewrite Hcall.
Defined.

(** ** The matrix-factorisation router *)

Section MatrixFactorization.
Context {S model : Type}.
Variable cuda_is_available : M S bool.
Variable from_pretrained : string → Z → M S model.
Variable eval_to : model → string → M S model.
Variable MODEL_IDS : gmap string Z.
Variables (checkpoint_path : string) (hidden_size : Z).
Variables strong_model weak_model : string.

Let init :=
  MatrixFactorizationRouterObject.__init__ cuda_is_available from_pretrained
    eval_to MODEL_IDS checkpoint_path hidden_size strong_model weak_model.

Lemma mf_init_run (s s1 s2 s3 : S) (cuda : bool) (m m' : model) :
  cuda_is_available s = (Ok cuda, s1) →
  from_pretrained checkpoint_path hidden_size s1 = (Ok m, s2) →
  eval_to m (if cuda then "cuda" else "cpu") s2 = (Ok m', s3) →
  init s
  = match MODEL_IDS !! strong_model, MODEL_IDS !! weak_model with
    | Some i, Some j => (Ok (MatrixFactorizationRouterObject.mkSelf m' i j), s3)
    | _, _ => (Raise KeyError, s3)
    end.
Proof.
  intros Hcuda Hload Hdev. unfold init, MatrixFactorizationRouterObject.__init__.
  rewrite bind_run, Hcuda, bind_run, Hload, bind_run, Hdev, bind_run, getitem_run.
  destruct (MODEL_IDS !! strong_model) as [i|]; [|done].
  rewrite bind_run, getitem_run.
  by destruct (MODEL_IDS !! weak_model) as [j|].
Qed.

(** X7. Once the model is loaded and moved to its device ([cuda] when
    available, [cpu] otherwise), the constructor of the matrix-factorisation
    router succeeds exactly when both model names are keys of [MODEL_IDS],
    and raises [KeyError] otherwise; the router it returns holds the loaded
    model and the two ids the table gives. *)
Theorem mf_init_model_ids (s s1 s2 s3 : S) (cuda : bool) (m m' : model) :
  cuda_is_available s = (Ok cuda, s1) →
  from_pretrained checkpoint_path hidden_size s1 = (Ok m, s2) →
  eval_to m (if cuda then "cuda" else "cpu") s2 = (Ok m', s3) →
  ((∃ o, (init s).1 = Ok o)
   ↔ is_Some (MODEL_IDS !! strong_model) ∧ is_Some (MODEL_IDS !! weak_model))
  ∧ ((init s).1 = Raise KeyError
     ↔ MODEL_IDS !! strong_model = None ∨ MODEL_IDS !! weak_model = None)
  ∧ (init s).2 = s3
  ∧ (∀ o, (init s).1 = Ok o →
       MatrixFactorizationRouterObject.model_handle o = m'
       ∧ MODEL_IDS !! strong_model
         = Some (MatrixFactorizationRouterObject.strong_model_id o)
       ∧ MODEL_IDS !! weak_model
         = Some (MatrixFactorizationRouterObject.weak_model_id o)).
Proof.
  intros Hcuda Hload Hdev. rewrite (mf_init_run s s1 s2 s3 cuda m m') by done.
  unfold is_Some.
  destruct (MODEL_IDS !! strong_model) as [i|];
    destruct (MODEL_IDS !! weak_model) as [j|]; simpl;
    split_and!; try done;
    repeat match goal with
           | |- _ ↔ _ => split
           | |- _ → _ => intro
           | |- _ ∧ _ => split
           | H : _ ∧ _ |- _ => destruct H
           | H : _ ∨ _ |- _ => destruct H
           | H : ∃ _, _ |- _ => destruct H
           | H : Ok _ = Ok _ |- _ => injection H as <-
           end; try done; try (by eexists); auto.
Qed.

Variable pred_win_rate : model → Z → Z → string → M S float.

(** X8. A matrix-factorisation router that the constructor returned asks
    the model for one prediction per call, for the id of the strong model,
    the id of the weak model and the prompt, in this order, and returns the
    model's answer, value or exception, as it is. *)
Theorem mf_built_router_prediction (s s' st : S) (calls : list (Z * Z * string))
    (o : MatrixFactorizationRouterObject.self) (prompt : string) :
  init s = (Ok o, s') →
  ∃ i j,
    MODEL_IDS !! strong_model = Some i ∧ MODEL_IDS !! weak_model = Some j
    ∧ let ask := λ '(a, b, p),
                   pred_win_rate (MatrixFactorizationRouterObject.model_handle o)
                     a b p in
      MatrixFactorizationRouterObject.calculate_strong_win_rate
        (λ _ a b p, counted ask (a, b, p)) o prompt (st, calls)
      = ((ask (i, j, prompt) st).1,
         ((ask (i, j, prompt) st).2, calls ++ [(i, j, prompt)])).
Proof.
  intros Hinit.
  unfold init, MatrixFactorizationRouterObject.__init__ in Hinit.
  rewrite bind_run in Hinit.
  destruct (cuda_is_available s) as [[cuda|e] s1]; [|done].
  rewrite bind_run in Hinit.
  destruct (from_pretrained checkpoint_path hidden_size s1) as [[m|e] s2]; [|done].
  rewrite bind_run in Hinit.
  destruct (eval_to m (if cuda then "cuda" else "cpu") s2) as [[m'|e] s3]; [|done].
  rewrite bind_run, getitem_run in Hinit.
  destruct (MODEL_IDS !! strong_model) as [i|]; [|done].
  rewrite bind_run, getitem_run in Hinit.
  destruct (MODEL_IDS !! weak_model) as [j|]; [|done].
  injection Hinit as <- <-. exists i, j. split_and!; try done.
  unfold MatrixFactorizationRouterObject.calculate_strong_win_rate,
    MatrixFactorizationRouter.calculate_strong_win_rate.
  rewrite bind_run. simpl.
  by destruct (pred_win_rate m' i j prompt st) as [[v|e] st'].
Qed.

End MatrixFactorization.

Lemma toy_mf_construction :
  MatrixFactorizationRouterObject.__init__ (mret true) toy_from_pretrained
    toy_eval_to toy_MODEL_IDS "mf.ckpt" 128 "gpt4" "llama" tt
  = (Ok (MatrixFactorizationRouterObject.mkSelf "mf.ckpt" 7%Z 9%Z), tt).
Proof. reflexivity. Qed.

Lemma mf_init_model_ids_witness :
  (∃ o, (MatrixFactorizationRouterObject.__init__ (mret true) toy_from_pretrained
           toy_eval_to toy_MODEL_IDS "mf.ckpt" 128 "gpt4" "llama" tt).1 = Ok o)
  ↔ is_Some (toy_MODEL_IDS !! "gpt4") ∧ is_Some (toy_MODEL_IDS !! "llama").
Proof.
  exact (proj1 (mf_init_model_ids (mret true) toy_from_pretrained toy_eval_to
                  toy_MODEL_IDS "mf.ckpt" 128 "gpt4" "llama" tt tt tt tt true
                  "mf.ckpt" "mf.ckpt" eq_refl eq_refl eq_refl)).
Defined.

Lemma mf_built_router_prediction_witness :
  ∃ i j,
    toy_MODEL_IDS !! "gpt4" = Some i ∧ toy_MODEL_IDS !! "llama" = Some j
    ∧ MatrixFactorizationRouterObject.calculate_strong_win_rate
        (λ _ a b p, counted (λ '(a, b, p), toy_pred_win_rate "mf.ckpt" a b p)
                      (a, b, p))
        (MatrixFactorizationRouterObject.mkSelf "mf.ckpt" 7%Z 9%Z) "hello" (tt, [])
      = (Ok (Fin (3 / 4)), (tt, [] ++ [(i, j, "hello")])).
Proof.
  destruct (mf_built_router_prediction (mret true) toy_from_pretrained toy_eval_to
              toy_MODEL_IDS "mf.ckpt" 128 "gpt4" "llama" toy_pred_win_rate
              tt tt tt [] _ "hello" toy_mf_construction)
    as (i & j & Hi & Hj & Hcall).
  exists i, j. by split_and!.
Defined.

(** ** More on the BERT router *)

Lemma softmax_add_constant (logits : list R) (c : R) :
  logits ≠ [] → softmax ((λ x, x + c)%R <$> logits) = softmax logits.
Proof.
  intros Hne. rewrite <- (softmax_shift logits (- c) Hne).
  unfold softmax. rewrite <- !list_fmap_compose.
  assert (Rsum (Rtrigo_def.exp ∘ (λ x, x + c)%R <$> logits)
          = Rsum ((λ x, Rtrigo_def.exp (x + - - c))%R <$> logits)) as ->.
  { f_equal. apply list_fmap_ext. intros _ x _. simpl. f_equal. lra. }
  apply list_fmap_ext. intros _ x _. simpl. do 2 f_equal. lra.
Qed.

(** X10. Adding the same constant to every logit does not change the win
    rate of the BERT router. *)
Theorem bert_shift_invariant {S tokens} (tokenizer : string → M S tokens)
    (model model' : tokens → M S (list float)) (prompt : string) (s s1 s2 : S)
    (inputs : tokens) (logits : list R) (c : R) :
  logits ≠ [] →
  tokenizer prompt s = (Ok inputs, s1) →
  model inputs s1 = (Ok (Fin <$> logits), s2) →
  model' inputs s1 = (Ok (Fin <$> ((λ x, x + c)%R <$> logits)), s2) →
  BERTRouter.calculate_strong_win_rate tokenizer model' prompt s
  = BERTRouter.calculate_strong_win_rate tokenizer model prompt s.
Proof.
  intros Hne Htok Hmodel Hmodel'.
  rewrite (bert_value tokenizer model prompt s s1 s2 inputs logits) by done.
  rewrite (bert_value tokenizer model' prompt s s1 s2 inputs
             ((λ x, x + c)%R <$> logits)); [|by destruct logits|done..].
  by rewrite softmax_add_constant.
Qed.

Lemma bert_shift_invariant_witness :
  BERTRouter.calculate_strong_win_rate toy_tokenizer
    (λ _, mret (Fin <$> ((λ x, x + 5)%R <$> [2; 0; 1]%R))) "hello" tt
  = BERTRouter.calculate_strong_win_rate toy_tokenizer toy_classifier "hello" tt.
Proof.
  apply (bert_shift_invariant toy_tokenizer toy_classifier
           (λ _, mret (Fin <$> ((λ x, x + 5)%R <$> [2; 0; 1]%R)))
           "hello" tt tt tt "hello" [2; 0; 1]%R 5%R);
    [discriminate|reflexivity..].
Defined.

(** X12. The BERT router passes on an exception of the tokenizer without
    calling the classifier, passes on an exception of the classifier, and
    raises [ValueError] when the classifier yields no logits. *)
Theorem bert_errors {S tokens} (tokenizer : string → M S tokens)
    (model : tokens → M S (list float)) (prompt : string) (s : S)
    (calls : list tokens) :
  (∀ e s1, tokenizer prompt s = (Raise e, s1) →
     BERTRouter.calculate_strong_win_rate
       (λ p, on_fst (tokenizer p)) (counted model) prompt (s, calls)
     = (Raise e, (s1, calls)))
  ∧ (∀ inputs s1 e s2,
       tokenizer prompt s = (Ok inputs, s1) → model inputs s1 = (Raise e, s2) →
       BERTRouter.calculate_strong_win_rate tokenizer model prompt s
       = (Raise e, s2))
  ∧ (∀ inputs s1 s2,
       tokenizer prompt s = (Ok inputs, s1) → model inputs s1 = (Ok [], s2) →
       BERTRouter.calculate_strong_win_rate tokenizer model prompt s
       = (Raise ValueError, s2)).
Proof.
  split_and!.
  - intros e s1 Htok. unfold BERTRouter.calculate_strong_win_rate.
    rewrite bind_run. simpl. by rewrite Htok.
  - intros inputs s1 e s2 Htok Hmodel. unfold BERTRouter.calculate_strong_win_rate.
    by rewrite bind_run, Htok, bind_run, Hmodel.
  - intros inputs s1 s2 Htok Hmodel. unfold BERTRouter.calculate_strong_win_rate.
    by rewrite bind_run, Htok, bind_run, Hmodel.
Qed.

(** ** Values that are not numbers *)

Lemma max2_NaN_r (a : float) : max2 a NaN = NaN.
Proof. by destruct a. Qed.

Lemma foldl_max2_NaN (l : list float) : foldl max2 NaN l = NaN.
Proof. induction l as [|y l IH]; [done|]. by cbn [foldl max2]. Qed.

Lemma foldl_max2_elem_NaN (l : list float) (x : float) :
  NaN ∈ x :: l → foldl max2 x l = NaN.
Proof.
  revert x. induction l as [|y l IH]; intros x Hin.
  - by apply list_elem_of_singleton in Hin as <-.
  - cbn [foldl]. apply elem_of_cons in Hin as [<-|Hin].
    + apply foldl_max2_NaN.
    + apply elem_of_cons in Hin as [<-|Hin].
      * rewrite max2_NaN_r. apply foldl_max2_NaN.
      * apply IH. by right.
Qed.

Lemma sub_NaN_r (a : float) : (a - NaN)%float = NaN.
Proof. by destruct a. Qed.

Lemma div_NaN_r (a : float) : (a / NaN)%float = NaN.
Proof. by destruct a. Qed.

Lemma sum_all_NaN {A} (l : list A) : l ≠ [] → sum ((λ _, NaN) <$> l) = NaN.
Proof. by destruct l. Qed.

(** X13. One [nan] among the logits makes the win rate of the BERT router
    [nan], and [route] then answers weak at every threshold. *)
Theorem bert_nan_logit {S tokens} (tokenizer : string → M S tokens)
    (model : tokens → M S (list float)) (prompt : string) (s s1 s2 : S)
    (inputs : tokens) (logits : list float) :
  NaN ∈ logits →
  tokenizer prompt s = (Ok inputs, s1) →
  model inputs s1 = (Ok logits, s2) →
  BERTRouter.calculate_strong_win_rate tokenizer model prompt s = (Ok NaN, s2)
  ∧ ∀ threshold,
      Router.route (BERTRouter.calculate_strong_win_rate tokenizer model)
        prompt threshold s
      = (Ok weak, s2).
Proof.
  intros Hnan Htok Hmodel.
  assert (BERTRouter.calculate_strong_win_rate tokenizer model prompt s
          = (Ok NaN, s2)) as Hrun.
  { unfold BERTRouter.calculate_strong_win_rate.
    rewrite bind_run, Htok, bind_run, Hmodel, bind_run.
    destruct logits as [|x l]; [by apply elem_of_nil in Hnan|].
    cbn [np_max]. rewrite mret_run, (foldl_max2_elem_NaN l x Hnan), mret_run.
    set (logits := x :: l).
    assert (map (λ a, exp (a - NaN)%float) logits = (λ _, NaN) <$> logits) as ->.
    { apply list_fmap_ext. intros _ a _. by rewrite sub_NaN_r. }
    rewrite sum_all_NaN by done.
    assert (map (λ a, (a / NaN)%float) ((λ _ : float, NaN) <$> logits)
            = (λ _, NaN) <$> logits) as ->.
    { by rewrite <- list_fmap_compose. }
    rewrite last_n_fmap, sum_all_NaN; [done|].
    unfold last_n, logits. intros Hnil. apply (f_equal length) in Hnil.
    rewrite length_drop in Hnil. simpl in Hnil. lia. }
  split; [done|]. intros threshold. by rewrite route_run, Hrun.
Qed.

Lemma bert_nan_logit_witness :
  BERTRouter.calculate_strong_win_rate toy_tokenizer
    (λ _, mret [Fin 1; NaN; Fin 0]) "hello" tt
  = (Ok NaN, tt)
  ∧ ∀ threshold,
      Router.route
        (BERTRouter.calculate_strong_win_rate toy_tokenizer
           (λ _, mret [Fin 1; NaN; Fin 0]))
        "hello" threshold tt
      = (Ok weak, tt).
Proof.
  apply (bert_nan_logit toy_tokenizer (λ _, mret [Fin 1; NaN; Fin 0]) "hello"
           tt tt tt "hello" [Fin 1; NaN; Fin 0]);
    [right; left|reflexivity|reflexivity].
Defined.

(** ** More on the random router *)

Lemma random_value {rng} (random_random : rng → R * rng) (prompt : string) (g : rng) :
  RandomRouter.calculate_strong_win_rate random_random prompt g
  = (Ok (Fin (0 + (1 + - 0) * (random_random g).1)), (random_random g).2).
Proof.
  unfold RandomRouter.calculate_strong_win_rate, RandomRouter.random_uniform.
  by destruct (random_random g).
Qed.

(** X14. The random router is routed to the strong model on every call when
    the threshold is at most 0, and to the weak model on every call when the
    threshold is at least 1, because its value is below 1. *)
Theorem random_route_extreme_thresholds {rng} (random_random : rng → R * rng)
    (Hrange : ∀ g, (0 <= (random_random g).1 < 1)%R)
    (prompt : string) (t : R) (g : rng) :
  ((t <= 0)%R →
   Router.route (RandomRouter.calculate_strong_win_rate random_random)
     prompt (Fin t) g
   = (Ok strong, (random_random g).2))
  ∧ ((1 <= t)%R →
     Router.route (RandomRouter.calculate_strong_win_rate random_random)
       prompt (Fin t) g
     = (Ok weak, (random_random g).2)).
Proof.
  specialize (Hrange g). split; intros Ht; rewrite route_run, random_value.
  - assert ((Fin (0 + (1 + - 0) * (random_random g).1) >=? Fin t)%float = true)
      as ->; [|done].
    apply ge_Fin. lra.
  - assert ((Fin (0 + (1 + - 0) * (random_random g).1) >=? Fin t)%float = false)
      as ->; [|done].
    apply not_true_is_false. rewrite ge_Fin. lra.
Qed.

Lemma random_route_extreme_thresholds_witness :
  (∀ g, (0 <= (lcg g).1 < 1)%R)
  ∧ ((0 <= 0)%R →
     Router.route (RandomRouter.calculate_strong_win_rate lcg) "a" (Fin 0) 5%Z
     = (Ok strong, (lcg 5).2))
  ∧ ((1 <= 0)%R →
     Router.route (RandomRouter.calculate_strong_win_rate lcg) "a" (Fin 0) 5%Z
     = (Ok weak, (lcg 5).2)).
Proof.
  exact (conj lcg_range (random_route_extreme_thresholds lcg lcg_range "a" 0 5%Z)).
Defined.

(** X15. A run of calls of the random router depends on the prompts only
    through their number: two lists of prompts of the same length give the
    same values and leave the generator in the same state. *)
Theorem random_serve_ignores_prompts {rng} (random_random : rng → R * rng)
    (prompts prompts' : list string) (g : rng) :
  length prompts = length prompts' →
  serve (RandomRouter.calculate_strong_win_rate random_random) prompts g
  = serve (RandomRouter.calculate_strong_win_rate random_random) prompts' g.
Proof.
  revert prompts' g. induction prompts as [|p ps IH]; intros [|p' ps'] g Hlen;
    try done.
  cbn [serve]. rewrite !random_value. injection Hlen as Hlen.
  by rewrite (IH ps' _ Hlen).
Qed.

Lemma random_serve_ignores_prompts_witness :
  length ["a"; "b"] = length ["c"; "d"]
  ∧ serve (RandomRouter.calculate_strong_win_rate lcg) ["a"; "b"] 5%Z
    = serve (RandomRouter.calculate_strong_win_rate lcg) ["c"; "d"] 5%Z.
Proof.
  exact (conj eq_refl
           (random_serve_ignores_prompts lcg ["a"; "b"] ["c"; "d"] 5%Z eq_refl)).
Defined.

(** ** More on similarity weights *)

(** X16. [get_weightings] raises [ValueError] exactly on an empty vector;
    on any other vector it returns one weight per similarity and leaves the
    store as it is. *)
Theorem get_weightings_empty_and_length {S} (similarities : list float) (st : S) :
  (SWRankingRouter.get_weightings similarities st = (Raise ValueError, st)
   ↔ similarities = [])
  ∧ (similarities ≠ [] →
     ∃ weightings,
       SWRankingRouter.get_weightings similarities st = (Ok weightings, st)
       ∧ length weightings = length similarities).
Proof.
  destruct similarities as [|x l].
  - split; [done|]. by intros [].
  - rewrite get_weightings_run. split; [done|]. intros _.
    eexists. split; [done|]. by rewrite length_fmap.
Qed.

(** X17. One [nan] among the similarities makes every weight [nan]. *)
Theorem get_weightings_nan_poisons {S} (similarities : list float) (st : S) :
  NaN ∈ similarities →
  SWRankingRouter.get_weightings similarities st
  = (Ok ((λ _, NaN) <$> similarities), st).
Proof.
  intros Hnan. destruct similarities as [|x l]; [by apply elem_of_nil in Hnan|].
  rewrite get_weightings_run, (foldl_max2_elem_NaN l x Hnan). do 2 f_equal.
  apply list_fmap_ext. intros _ a _. by rewrite div_NaN_r.
Qed.

Lemma get_weightings_nan_poisons_witness :
  NaN ∈ [Fin 1; NaN]
  ∧ SWRankingRouter.get_weightings [Fin 1; NaN] tt
    = (Ok ((λ _, NaN) <$> [Fin 1; NaN]), tt).
Proof.
  assert (H : NaN ∈ [Fin 1; NaN]) by (right; left).
  exact (conj H (get_weightings_nan_poisons [Fin 1; NaN] tt H)).
Defined.

Lemma signed_inf_scale (c x : R) : (0 < c)%R → signed_inf (c * x) = signed_inf x.
Proof.
  intros Hc. unfold signed_inf.
  destruct (Req_dec_T (c * x) 0) as [H|H], (Req_dec_T x 0) as [H'|H'];
    try done; try nra.
  destruct (Rlt_dec 0 (c * x)), (Rlt_dec 0 x); try done; nra.
Qed.

Lemma div_Fin_scale (c v m : R) :
  (0 < c)%R → (Fin (c * v) / Fin (c * m))%float = (Fin v / Fin m)%float.
Proof.
  intros Hc. cbn [div].
  destruct (Req_dec_T (c * m) 0) as [H|H], (Req_dec_T m 0) as [H'|H'];
    try nra.
  - by apply signed_inf_scale.
  - f_equal. field. split; lra.
Qed.

(** X18. Multiplying every similarity by the same positive number does not
    change the weights. *)
Theorem get_weightings_scale_invariant {S} (s : list R) (c : R) (st : S) :
  (0 < c)%R →
  SWRankingRouter.get_weightings (Fin <$> ((λ x, c * x)%R <$> s)) st
  = SWRankingRouter.get_weightings (Fin <$> s) st.
Proof.
  intros Hc. destruct s as [|x l]; [done|].
  set (s := x :: l). set (m := foldl Rmax x l).
  assert (m ∈ s) as Hm by apply foldl_Rmax_elem.
  assert (Forall (λ y, y <= m)%R s) as Hub.
  { apply Forall_forall. intros y Hy. by apply foldl_Rmax_ub. }
  rewrite (get_weightings_Fin s m st Hm Hub).
  rewrite (get_weightings_Fin ((λ x, c * x)%R <$> s) (c * m)%R st).
  - do 2 f_equal. rewrite <- list_fmap_compose. apply list_fmap_ext.
    intros _ v _. unfold compose. cbn beta. by rewrite div_Fin_scale.
  - by apply (list_elem_of_fmap_2 (λ x, c * x)%R).
  - apply Forall_fmap. eapply Forall_impl; [exact Hub|].
    intros y Hy. simpl in *. nra.
Qed.

Lemma get_weightings_scale_invariant_witness :
  (0 < 3)%R
  ∧ SWRankingRouter.get_weightings (Fin <$> ((λ x, 3 * x)%R <$> [-1; 2]%R)) tt
    = SWRankingRouter.get_weightings (Fin <$> [-1; 2]%R) tt.
Proof.
  assert (H : (0 < 3)%R) by lra.
  exact (conj H (get_weightings_scale_invariant [-1; 2]%R 3%R tt H)).
Defined.

Lemma weight_at_max (m : R) : m ≠ 0%R → weight m m = 100%R.
Proof.
  intros Hm. unfold weight.
  replace (m / m)%R with 1%R by (field; done).
  rewrite Rpower_1 by lra. lra.
Qed.

(** X19. When the largest similarity is not zero its weight is exactly 100;
    every weight is at most 100 when the largest similarity is positive, and
    at least 100 when it is negative. *)
Theorem get_weightings_hundred {S} (s : list R) (m : R) (st : S) :
  m ∈ s → Forall (λ y, y <= m)%R s → m ≠ 0%R →
  ∃ ws, SWRankingRouter.get_weightings (Fin <$> s) st = (Ok (Fin <$> ws), st)
        ∧ 100%R ∈ ws
        ∧ ((0 < m)%R → Forall (λ w, w <= 100)%R ws)
        ∧ ((m < 0)%R → Forall (λ w, 100 <= w)%R ws).
Proof.
  intros Hm Hub Hm0. exists (weight m <$> s). split_and!.
  - rewrite (get_weightings_Fin s m st Hm Hub). do 2 f_equal.
    rewrite <- list_fmap_compose. apply list_fmap_ext.
    intros _ v _. by apply weighting_nonzero_max.
  - rewrite <- (weight_at_max m Hm0). by apply list_elem_of_fmap_2.
  - intros Hpos. apply Forall_fmap. eapply Forall_impl; [exact Hub|].
    intros y Hy. simpl in *. rewrite <- (weight_at_max m Hm0).
    by apply weight_mono.
  - intros Hneg. apply Forall_fmap. eapply Forall_impl; [exact Hub|].
    intros y Hy. simpl in *. rewrite <- (weight_at_max m Hm0).
    by apply weight_anti.
Qed.

Lemma get_weightings_hundred_witness :
  (1 ∈ [1/2; 1])%R ∧ Forall (λ y, y <= 1)%R [1/2; 1]%R ∧ (1 ≠ 0)%R
  ∧ ∃ ws, SWRankingRouter.get_weightings (Fin <$> [1/2; 1]%R) tt
          = (Ok (Fin <$> ws), tt)
          ∧ 100%R ∈ ws
          ∧ ((0 < 1)%R → Forall (λ w, w <= 100)%R ws)
          ∧ ((1 < 0)%R → Forall (λ w, 100 <= w)%R ws).
Proof.
  assert (H1 : (1 ∈ [1/2; 1])%R) by (right; left).
  assert (H2 : Forall (λ y, y <= 1)%R [1/2; 1]%R)
    by (repeat constructor; lra).
  assert (H3 : (1 ≠ 0)%R) by lra.
  exact (conj H1 (conj H2 (conj H3
           (get_weightings_hundred [1/2; 1]%R 1%R tt H1 H2 H3)))).
Defined.

(** ** More on the construction of the similarity-weighted router *)





Section ConstructionMore.
Variable compute_elo_mle_with_tie :
  DataFrame → option (list float) → gmap label float.
Variable compute_tiers : gmap label float → Z → gmap label Z.
Variables json_array_decode json_lines_decode : string → DataFrame.
Variable npy_decode : string → list (list float).
Variables strong_model weak_model arena_df_path arena_embedding_path : string.
Variable num_tiers : Z.

Let init :=
  SWRankingRouter.__init__ compute_elo_mle_with_tie compute_tiers
    json_array_decode json_lines_decode npy_decode
    strong_model weak_model arena_df_path arena_embedding_path num_tiers.

Let decode_df (contents : string) : DataFrame :=
  if endswith arena_df_path ".json"
  then json_array_decode contents
  else json_lines_decode contents.



(** X21. A router that the constructor returned holds the two model names
    it was given and the embedding model [text-embedding-3-small]; its tier
    mapping is computed from the unweighted fit of the dataset as loaded,
    with model names; the dataset keeps its number of rows and every
    participant entry is a tier number; both files were opened once, the
    dataset first. *)
Theorem sw_init_fields (fs fs' : FS) (o : SWRankingRouter.self) :
  init fs = (Ok o, fs') →
  SWRankingRouter.strong_model o = strong_model
  ∧ SWRankingRouter.weak_model o = weak_model
  ∧ SWRankingRouter.embedding_model o = "text-embedding-3-small"
  ∧ fs' = mkFS (files fs) (opened fs ++ [arena_df_path; arena_embedding_path])
  ∧ Forall (λ l, ∃ t, l = LInt t)
      (model_a (SWRankingRouter.arena_df o) ++ model_b (SWRankingRouter.arena_df o))
  ∧ ∃ c1, files fs !! arena_df_path = Some c1
          ∧ let df := if endswith arena_df_path ".json"
                      then json_array_decode c1 else json_lines_decode c1 in
            SWRankingRouter.model2tier o
            = compute_tiers (compute_elo_mle_with_tie df None) num_tiers
            ∧ length (model_a (SWRankingRouter.arena_df o)) = length (model_a df)
            ∧ length (model_b (SWRankingRouter.arena_df o)) = length (model_b df).
Proof.
  intros Hinit.
  destruct (files fs !! arena_df_path) as [c1|] eqn:Hdf.
  2:{ unfold init in Hinit.
      by rewrite (init_missing_dataset _ _ _ _ _ _ _ _ _ _ fs Hdf) in Hinit. }
  destruct (files fs !! arena_embedding_path) as [c2|] eqn:Hemb.
  2:{ unfold init in Hinit.
      by rewrite (init_missing_embedding _ _ _ _ _ _ _ _ _ _ fs c1 Hdf Hemb)
        in Hinit. }
  destruct (init_both_present compute_elo_mle_with_tie compute_tiers
              json_array_decode json_lines_decode npy_decode
              strong_model weak_model arena_df_path arena_embedding_path
              num_tiers fs c1 c2 Hdf Hemb) as (Hfs & _ & Ho).
  fold init in Hfs, Ho. rewrite Hinit in Hfs, Ho. simpl in Hfs.
  destruct (Ho o eq_refl) as (Heq & Ha & Hb & _).
  assert (∀ m2t before after,
            relabelled m2t before after →
            Forall (λ l, ∃ t, l = LInt t) after) as Htiers.
  { intros m2t before after Hrel.
    induction Hrel as [|x y ? ? (t & _ & ->) _ IH]; constructor;
      [by exists t|done]. }
  pose proof (f_equal SWRankingRouter.strong_model Heq) as Hstrong.
  pose proof (f_equal SWRankingRouter.weak_model Heq) as Hweak.
  pose proof (f_equal SWRankingRouter.embedding_model Heq) as Hmodel.
  pose proof (f_equal SWRankingRouter.model2tier Heq) as Hm2t.
  cbn [SWRankingRouter.strong_model SWRankingRouter.weak_model
       SWRankingRouter.embedding_model SWRankingRouter.model2tier]
    in Hstrong, Hweak, Hmodel, Hm2t.
  split_and!; try done.
  - apply Forall_app. split; [by eapply Htiers|by eapply Htiers].
  - exists c1. split; [done|]. cbn zeta. split_and!; [done|..].
    + symmetry. by eapply Forall2_length.
    + symmetry. by eapply Forall2_length.
Qed.


End ConstructionMore.


Lemma sw_init_fields_witness :
  SWRankingRouter.strong_model toy_router = "gpt4"
  ∧ SWRankingRouter.weak_model toy_router = "llama"
  ∧ SWRankingRouter.embedding_model toy_router = "text-embedding-3-small".
Proof.
  destruct (sw_init_fields toy_elo toy_tiers toy_decode toy_decode toy_npy_decode
              "gpt4" "llama" "battles.json" "embeddings.npy" 2 toy_files _
              toy_router toy_construction) as (H1 & H2 & H3 & _).
  by split_and!.
Defined.

(** ** More on the calls of the similarity-weighted router *)

Section EstimationMore.
Variable compute_elo_mle_with_tie :
  DataFrame → option (list float) → gmap label float.
Context {W : Type}.
Variable embeddings_create : list string → string → M W (list float).

Let estimate :=
  SWRankingRouter.calculate_strong_win_rate compute_elo_mle_with_tie embeddings_create.

Lemma estimate_embedding_error (prompt : string) (o : SWRankingRouter.self)
    (w w' : W) (e : exn) :
  embeddings_create [prompt] (SWRankingRouter.embedding_model o) w = (Raise e, w') →
  estimate prompt (o, w) = (Raise e, (o, w')).
Proof.
  intros Hemb.
  unfold estimate, SWRankingRouter.calculate_strong_win_rate,
    SWRankingRouter.attr, SWRankingRouter.external, gets.
  rewrite bind_run. cbn [fst snd].
  rewrite bind_run. unfold on_snd at 1. by rewrite Hemb.
Qed.

Lemma estimate_value_error (prompt : string) (o : SWRankingRouter.self)
    (w w' : W) (e : list float) :
  embeddings_create [prompt] (SWRankingRouter.embedding_model o) w = (Ok e, w') →
  SWRankingRouter.arena_conv_embedding o = []
  ∨ ¬ Forall (λ row, length row = length e) (SWRankingRouter.arena_conv_embedding o) →
  estimate prompt (o, w) = (Raise ValueError, (o, w')).
Proof.
  intros Hemb Hbad.
  unfold estimate, SWRankingRouter.calculate_strong_win_rate,
    SWRankingRouter.attr, SWRankingRouter.external, gets.
  rewrite bind_run. cbn [fst snd].
  rewrite bind_run. unfold on_snd at 1. rewrite Hemb.
  rewrite bind_run, bind_run. cbn [fst snd].
  destruct Hbad as [Hnil|Hdim].
  - by rewrite Hnil.
  - by rewrite (mapM_dot_mismatch _ _ _ Hdim).
Qed.

Lemma estimate_after_embedding (prompt : string) (o : SWRankingRouter.self)
    (w w' : W) (e : list float) :
  embeddings_create [prompt] (SWRankingRouter.embedding_model o) w = (Ok e, w') →
  SWRankingRouter.arena_conv_embedding o ≠ [] →
  Forall (λ row, length row = length e) (SWRankingRouter.arena_conv_embedding o) →
  let res := compute_elo_mle_with_tie (SWRankingRouter.arena_df o)
               (Some (battle_weights (SWRankingRouter.arena_conv_embedding o) e)) in
  let m2t := SWRankingRouter.model2tier o in
  estimate prompt (o, w)
  = (match m2t !! LStr (SWRankingRouter.weak_model o) with
     | None => Raise KeyError
     | Some weak_tier =>
         match res !! LInt weak_tier with
         | None => Raise KeyError
         | Some weak_score =>
             match m2t !! LStr (SWRankingRouter.strong_model o) with
             | None => Raise KeyError
             | Some strong_tier =>
                 match res !! LInt strong_tier with
                 | None => Raise KeyError
                 | Some strong_score =>
                     Ok (Fin 1 - Fin 1 /
                           (Fin 1 + pow10 ((strong_score - weak_score) / Fin 400)))%float
                 end
             end
         end
     end, (o, w')).
Proof.
  intros Hemb Hne Hdim res m2t.
  destruct (m2t !! LStr (SWRankingRouter.weak_model o)) as [wt|] eqn:Hwt;
  [destruct (res !! LInt wt) as [ws|] eqn:Hws;
   [destruct (m2t !! LStr (SWRankingRouter.strong_model o)) as [stt|] eqn:Hst;
    [destruct (res !! LInt stt) as [ss|] eqn:Hss|]|]|].
  { by apply (estimate_value compute_elo_mle_with_tie embeddings_create
                prompt o w w' e wt stt ws ss). }
  all: unfold estimate, SWRankingRouter.calculate_strong_win_rate,
      SWRankingRouter.attr, SWRankingRouter.external, gets;
    rewrite bind_run; cbn [fst snd];
    rewrite bind_run; unfold on_snd at 1; rewrite Hemb;
    rewrite bind_run, bind_run, (mapM_dot _ _ _ Hdim), cosine_similarities;
    rewrite bind_run; cbn [fst snd];
    destruct (SWRankingRouter.arena_conv_embedding o) as [|row rows] eqn:Hrows;
      [done|];
    rewrite fmap_cons, get_weightings_run;
    change ((λ s, Fin 10 * pow10 (s / foldl max2 (cosine row e)
                  ((λ row0, cosine row0 e) <$> rows)))%float
            <$> cosine row e :: ((λ row0, cosine row0 e) <$> rows))
      with (battle_weights (row :: rows) e);
    rewrite !bind_run; cbn [fst snd];
    rewrite getitem_run; fold m2t; rewrite Hwt; try done;
    rewrite !bind_run, getitem_run; fold res; rewrite Hws; try done;
    rewrite !bind_run; cbn [fst snd];
    rewrite getitem_run; fold m2t; rewrite Hst; try done;
    rewrite bind_run, getitem_run; fold res; by rewrite Hss.
Qed.

Lemma estimate_store (prompt : string) (o : SWRankingRouter.self) (w : W) :
  (estimate prompt (o, w)).2
  = (o, (embeddings_create [prompt] (SWRankingRouter.embedding_model o) w).2).
Proof.
  destruct (embeddings_create [prompt] (SWRankingRouter.embedding_model o) w)
    as [[e|err] w'] eqn:Hemb.
  2:{ by rewrite (estimate_embedding_error prompt o w w' err Hemb). }
  destruct (decide (Forall (λ row, length row = length e)
                      (SWRankingRouter.arena_conv_embedding o))) as [Hdim|Hdim].
  2:{ rewrite (estimate_value_error prompt o w w' e Hemb); [done|by right]. }
  destruct (decide (SWRankingRouter.arena_conv_embedding o = [])) as [Hnil|Hne].
  { rewrite (estimate_value_error prompt o w w' e Hemb); [done|by left]. }
  by rewrite (estimate_after_embedding prompt o w w' e Hemb Hne Hdim).
Qed.

(** X23. After the prompt embedding has arrived, a call of the
    similarity-weighted estimator raises [ValueError] when no embeddings are
    stored or a stored embedding has another dimension than the prompt
    embedding; otherwise it raises [KeyError] when the weak or the strong
    model has no tier or the refit has no rating for one of the two tiers.
    In every case the router and the state of the embedding service are as
    the request left them. *)
Theorem sw_call_errors (prompt : string) (o : SWRankingRouter.self) (w w' : W)
    (e : list float) :
  embeddings_create [prompt] (SWRankingRouter.embedding_model o) w = (Ok e, w') →
  let rows := SWRankingRouter.arena_conv_embedding o in
  let res := compute_elo_mle_with_tie (SWRankingRouter.arena_df o)
               (Some (battle_weights rows e)) in
  let tier_rating model :=
    t ← SWRankingRouter.model2tier o !! LStr model; res !! LInt t in
  (rows = [] ∨ ¬ Forall (λ row, length row = length e) rows →
   estimate prompt (o, w) = (Raise ValueError, (o, w')))
  ∧ (rows ≠ [] → Forall (λ row, length row = length e) rows →
     tier_rating (SWRankingRouter.weak_model o) = None
     ∨ tier_rating (SWRankingRouter.strong_model o) = None →
     estimate prompt (o, w) = (Raise KeyError, (o, w')))
  ∧ (rows ≠ [] → Forall (λ row, length row = length e) rows →
     is_Some (tier_rating (SWRankingRouter.weak_model o)) →
     is_Some (tier_rating (SWRankingRouter.strong_model o)) →
     ∃ v, estimate prompt (o, w) = (Ok v, (o, w'))).
Proof.
  intros Hemb rows res tier_rating. split_and!.
  - by apply estimate_value_error.
  - intros Hne Hdim Hmiss.
    rewrite (estimate_after_embedding prompt o w w' e Hemb Hne Hdim).
    fold rows res. unfold tier_rating in Hmiss.
    destruct (SWRankingRouter.model2tier o !! LStr (SWRankingRouter.weak_model o))
      as [wt|]; [|done]. simpl in Hmiss.
    destruct (res !! LInt wt) as [ws|]; [|done].
    destruct (SWRankingRouter.model2tier o !! LStr (SWRankingRouter.strong_model o))
      as [stt|]; [|done]. simpl in Hmiss.
    destruct (res !! LInt stt) as [ss|]; [|done].
    by destruct Hmiss.
  - intros Hne Hdim [ws Hws] [ss Hss].
    rewrite (estimate_after_embedding prompt o w w' e Hemb Hne Hdim).
    fold rows res. unfold tier_rating in Hws, Hss.
    destruct (SWRankingRouter.model2tier o !! LStr (SWRankingRouter.weak_model o))
      as [wt|]; [|done]. simpl in Hws. rewrite Hws.
    destruct (SWRankingRouter.model2tier o !! LStr (SWRankingRouter.strong_model o))
      as [stt|]; [|done]. simpl in Hss. rewrite Hss. by eexists.
Qed.

End EstimationMore.

(** X22. Every call of the similarity-weighted estimator, returning or
    raising, sends the embedding service exactly one request, for the single
    prompt and the router's embedding model, and leaves the service in the
    state that request produced; a failure of the request is raised as it
    is. *)
Theorem sw_one_embedding_request {W}
    (compute_elo_mle_with_tie : DataFrame → option (list float) → gmap label float)
    (embeddings_create : list string → string → M W (list float))
    (prompt : string) (o : SWRankingRouter.self) (w : W)
    (requests : list (list string * string)) :
  let request := ([prompt], SWRankingRouter.embedding_model o) in
  let answer := embeddings_create request.1 request.2 w in
  (SWRankingRouter.calculate_strong_win_rate compute_elo_mle_with_tie
     (λ input model, counted (λ '(i, m), embeddings_create i m) (input, model))
     prompt (o, (w, requests))).2
  = (o, (answer.2, requests ++ [request]))
  ∧ (∀ e, answer.1 = Raise e →
       SWRankingRouter.calculate_strong_win_rate compute_elo_mle_with_tie
         embeddings_create prompt (o, w)
       = (Raise e, (o, answer.2))).
Proof.
  intros request answer. split.
  - rewrite estimate_store. unfold counted, answer, request. simpl.
    by destruct (embeddings_create _ _ w).
  - intros e He. apply estimate_embedding_error.
    unfold answer, request in *. simpl in *.
    by destruct (embeddings_create _ _ w) as [r w']; simpl in *; subst.
Qed.

Lemma sw_call_errors_witness :
  ∃ v, SWRankingRouter.calculate_strong_win_rate toy_elo toy_embed "hello"
         (toy_router, tt)
       = (Ok v, (toy_router, tt)).
Proof.
  destruct (sw_call_errors toy_elo toy_embed "hello" toy_router tt tt
              [Fin 1; Fin 0] eq_refl) as (_ & _ & Hok).
  apply Hok; [discriminate|repeat constructor|by eexists|by eexists].
Defined.

(** ** Ratings and win rates *)

Lemma Rpower10_gt_1 (x : R) : (1 < Rpower 10 x)%R ↔ (0 < x)%R.
Proof.
  rewrite <- (Rpower_O 10) by lra. split.
  - intros H. destruct (Rlt_le_dec 0 x) as [|Hle]; [done|].
    pose proof (Rle_Rpower 10 x 0 ltac:(lra) Hle). lra.
  - intros H. apply Rpower_lt; lra.
Qed.

Lemma elo_above_half (a b : R) : (1 / 2 < elo_strong_winrate a b)%R ↔ (b < a)%R.
Proof.
  unfold elo_strong_winrate.
  pose proof (Rpower10_pos ((a - b) / 400)) as Hp.
  pose proof (Rpower10_gt_1 ((a - b) / 400)) as Hgt.
  set (p := Rpower 10 ((a - b) / 400)) in *.
  assert (1 / (1 + p) < 1 / 2 ↔ 1 < p)%R as Hhalf.
  { split; intros H.
    - apply (Rmult_lt_compat_r (2 * (1 + p))) in H; [|lra].
      field_simplify in H; lra.
    - apply (Rmult_lt_reg_r (2 * (1 + p))); [lra|]. field_simplify; lra. }
  split; intros H.
  - assert (0 < (a - b) / 400)%R by (apply Hgt, Hhalf; lra). lra.
  - assert (1 < p)%R by (apply Hgt; lra). apply Hhalf in H0. lra.
Qed.

Lemma elo_equal_ratings (a : R) : elo_strong_winrate a a = (1 / 2)%R.
Proof.
  unfold elo_strong_winrate.
  replace ((a - a) / 400)%R with 0%R by (field; lra).
  rewrite Rpower_O by lra. lra.
Qed.

Lemma elo_at_least_half (a b : R) : (b <= a)%R → (1 / 2 <= elo_strong_winrate a b)%R.
Proof.
  intros [Hlt| ->].
  - apply Rlt_le. by apply elo_above_half.
  - rewrite elo_equal_ratings. lra.
Qed.

Lemma elo_at_most_half (a b : R) : (a <= b)%R → (elo_strong_winrate a b <= 1 / 2)%R.
Proof.
  intros Hle. apply Rnot_lt_le. intros H. apply (elo_above_half a b) in H. lra.
Qed.

Section Ratings.
Variable compute_elo_mle_with_tie :
  DataFrame → option (list float) → gmap label float.
Context {W : Type}.
Variable embeddings_create : list string → string → M W (list float).

Let estimate :=
  SWRankingRouter.calculate_strong_win_rate compute_elo_mle_with_tie embeddings_create.

(** X25. The estimate follows the order of the two refitted ratings: it is
    at least one half when the tier of the strong model is rated at least as
    high as the tier of the weak model, at most one half when it is rated at
    most as high, and one half when the two ratings are equal, in particular
    when both models are in the same tier. *)
Theorem sw_rating_order (prompt : string) (o : SWRankingRouter.self) (w w' : W)
    (e : list float) (weak_tier strong_tier : Z) (weak_rating strong_rating : R) :
  embeddings_create [prompt] (SWRankingRouter.embedding_model o) w = (Ok e, w') →
  SWRankingRouter.arena_conv_embedding o ≠ [] →
  Forall (λ row, length row = length e) (SWRankingRouter.arena_conv_embedding o) →
  SWRankingRouter.model2tier o !! LStr (SWRankingRouter.weak_model o) = Some weak_tier →
  SWRankingRouter.model2tier o !! LStr (SWRankingRouter.strong_model o) = Some strong_tier →
  let res := compute_elo_mle_with_tie (SWRankingRouter.arena_df o)
               (Some (battle_weights (SWRankingRouter.arena_conv_embedding o) e)) in
  res !! LInt weak_tier = Some (Fin weak_rating) →
  res !! LInt strong_tier = Some (Fin strong_rating) →
  ∃ v, estimate prompt (o, w) = (Ok (Fin v), (o, w'))
       ∧ ((weak_rating <= strong_rating)%R → (1 / 2 <= v)%R)
       ∧ ((strong_rating <= weak_rating)%R → (v <= 1 / 2)%R)
       ∧ (strong_rating = weak_rating → v = (1 / 2)%R)
       ∧ (strong_tier = weak_tier → v = (1 / 2)%R).
Proof.
  intros Hemb Hne Hdim Hwt Hst res Hws Hss.
  exists (elo_strong_winrate strong_rating weak_rating). split_and!.
  - unfold estimate.
    rewrite (estimate_value compute_elo_mle_with_tie embeddings_create prompt o w w' e
               weak_tier strong_tier (Fin weak_rating) (Fin strong_rating));
      try done.
    by rewrite winrate_Fin.
  - by apply elo_at_least_half.
  - by apply elo_at_most_half.
  - intros ->. apply elo_equal_ratings.
  - intros Heq. rewrite Heq, Hws in Hss. injection Hss as <-.
    apply elo_equal_ratings.
Qed.

End Ratings.

Lemma sw_rating_order_witness :
  ∃ v, SWRankingRouter.calculate_strong_win_rate toy_elo toy_embed "hello"
         (toy_router, tt) = (Ok (Fin v), (toy_router, tt))
       ∧ ((1000 <= 1200)%R → (1 / 2 <= v)%R)
       ∧ ((1200 <= 1000)%R → (v <= 1 / 2)%R)
       ∧ (1200%R = 1000%R → v = (1 / 2)%R)
       ∧ (0%Z = 1%Z → v = (1 / 2)%R).
Proof.
  apply (sw_rating_order toy_elo toy_embed "hello" toy_router tt tt
           [Fin 1; Fin 0] 1%Z 0%Z 1000%R 1200%R);
    [reflexivity|discriminate|repeat constructor|reflexivity..].
Defined.

(** ** A zero prompt embedding *)

Lemma sum_zip_mul_zero (r : list R) (e : list float) :
  Forall (λ x, x = Fin 0) e → sum (zip_with mul (Fin <$> r) e) = Fin 0.
Proof.
  intros He. revert r. induction He as [|x e -> _ IH]; intros [|a r]; try done.
  rewrite fmap_cons. cbn [zip_with]. unfold sum in *. cbn [foldr].
  rewrite IH. cbn [mul add]. f_equal. lra.
Qed.

Lemma sum_squares_zero (e : list float) :
  Forall (λ x, x = Fin 0) e → sum (map (λ x, x * x)%float e) = Fin 0.
Proof.
  induction 1 as [|x e -> _ IH]; [done|].
  cbn [map]. unfold sum in *. cbn [foldr]. rewrite IH. cbn [mul add].
  f_equal. lra.
Qed.

Lemma norm_zero (e : list float) :
  Forall (λ x, x = Fin 0) e → SWRankingRouter.norm e = Fin 0.
Proof.
  intros He. unfold SWRankingRouter.norm. rewrite (sum_squares_zero e He).
  cbn [sqrt]. destruct (Rlt_dec 0 0); [lra|]. by rewrite sqrt_0.
Qed.

Lemma norm_finite (r : list R) : ∃ n, SWRankingRouter.norm (Fin <$> r) = Fin n.
Proof.
  unfold SWRankingRouter.norm.
  assert (map (λ x, x * x)%float (Fin <$> r) = Fin <$> ((λ x, x * x)%R <$> r)) as ->.
  { by rewrite <- !list_fmap_compose. }
  rewrite sum_Fin. cbn [sqrt].
  assert (0 <= Rsum ((λ x, x * x)%R <$> r))%R.
  { apply Rsum_nonneg, Forall_fmap, Forall_true. intros x. simpl. nra. }
  destruct (Rlt_dec _ 0); [lra|]. by eexists.
Qed.

Lemma cosine_zero_prompt (r : list R) (e : list float) :
  Forall (λ x, x = Fin 0) e → cosine (Fin <$> r) e = NaN.
Proof.
  intros He. unfold cosine.
  rewrite (sum_zip_mul_zero r e He), (norm_zero e He).
  destruct (norm_finite r) as [n ->]. cbn [mul div].
  destruct (Req_dec_T (n * 0) 0) as [_|Hn]; [|lra].
  unfold signed_inf. by destruct (Req_dec_T 0 0).
Qed.

Lemma battle_weights_zero_prompt (rows : list (list R)) (e : list float) :
  Forall (λ x, x = Fin 0) e → rows ≠ [] →
  battle_weights ((λ r : list R, Fin <$> r) <$> rows) e = (λ _, NaN) <$> rows.
Proof.
  intros He Hne. unfold battle_weights.
  assert ((λ row, cosine row e) <$> ((λ r : list R, Fin <$> r) <$> rows)
          = (λ _, NaN) <$> rows) as ->.
  { rewrite <- list_fmap_compose. apply list_fmap_ext. intros _ r _. simpl.
    by apply cosine_zero_prompt. }
  destruct rows as [|r rows]; [done|].
  rewrite fmap_cons. cbn [head tail default]. rewrite foldl_max2_NaN.
  rewrite fmap_cons, <- list_fmap_compose. done.
Qed.

(** X26. When the embedding service answers with a zero vector and the
    stored embeddings are finite, every similarity is [0 / 0]: whatever the
    call returns is computed from a refit whose weights are all [nan]. *)
Theorem sw_zero_prompt_embedding {W}
    (compute_elo_mle_with_tie : DataFrame → option (list float) → gmap label float)
    (embeddings_create : list string → string → M W (list float))
    (prompt : string) (o : SWRankingRouter.self) (w w' : W) (e : list float)
    (rows : list (list R)) :
  embeddings_create [prompt] (SWRankingRouter.embedding_model o) w = (Ok e, w') →
  Forall (λ x, x = Fin 0) e →
  SWRankingRouter.arena_conv_embedding o = (λ r : list R, Fin <$> r) <$> rows →
  ∀ v st',
    SWRankingRouter.calculate_strong_win_rate compute_elo_mle_with_tie
      embeddings_create prompt (o, w) = (Ok v, st') →
    ∃ weak_tier strong_tier weak_score strong_score,
      SWRankingRouter.model2tier o !! LStr (SWRankingRouter.weak_model o)
      = Some weak_tier
      ∧ SWRankingRouter.model2tier o !! LStr (SWRankingRouter.strong_model o)
        = Some strong_tier
      ∧ (let res := compute_elo_mle_with_tie (SWRankingRouter.arena_df o)
                      (Some ((λ _, NaN) <$> rows)) in
         res !! LInt weak_tier = Some weak_score
         ∧ res !! LInt strong_tier = Some strong_score)
      ∧ v = (Fin 1 - Fin 1 /
               (Fin 1 + pow10 ((strong_score - weak_score) / Fin 400)))%float.
Proof.
  intros Hemb He Hrows v st' Hrun.
  destruct (estimate_ok_inv compute_elo_mle_with_tie embeddings_create
              prompt o w v st' Hrun)
    as (e' & w'' & wt & stt & ws & ss & Hemb' & Hwt & Hst & Hres & -> & _).
  rewrite Hemb in Hemb'. injection Hemb' as <- <-.
  assert (rows ≠ []) as Hne.
  { intros ->. simpl in Hrows.
    rewrite (estimate_value_error compute_elo_mle_with_tie embeddings_create
               prompt o w w' e Hemb) in Hrun; [done|by left]. }
  rewrite Hrows, (battle_weights_zero_prompt rows e He Hne) in Hres.
  by exists wt, stt, ws, ss.
Qed.

Lemma sw_zero_prompt_embedding_witness :
  ∃ weak_tier strong_tier weak_score strong_score,
    SWRankingRouter.model2tier toy_router !! LStr "llama" = Some weak_tier
    ∧ SWRankingRouter.model2tier toy_router !! LStr "gpt4" = Some strong_tier
    ∧ (let res := toy_elo (SWRankingRouter.arena_df toy_router)
                    (Some ((λ _, NaN) <$> [[1; 0]; [0; 1]]%R)) in
       res !! LInt weak_tier = Some weak_score
       ∧ res !! LInt strong_tier = Some strong_score)
    ∧ (Fin 1 - Fin 1 / (Fin 1 + pow10 ((Fin 1200 - Fin 1000) / Fin 400)))%float
      = (Fin 1 - Fin 1 /
           (Fin 1 + pow10 ((strong_score - weak_score) / Fin 400)))%float.
Proof.
  assert (SWRankingRouter.calculate_strong_win_rate toy_elo
            (λ _ _, mret [Fin 0; Fin 0]) "hello" (toy_router, tt)
          = (Ok (Fin 1 - Fin 1 /
                   (Fin 1 + pow10 ((Fin 1200 - Fin 1000) / Fin 400)))%float,
             (toy_router, tt))) as Hrun.
  { apply (estimate_value toy_elo (λ _ _, mret [Fin 0; Fin 0]) "hello" toy_router
             tt tt [Fin 0; Fin 0] 1%Z 0%Z (Fin 1000) (Fin 1200));
      [reflexivity|discriminate|repeat constructor|reflexivity..]. }
  exact (sw_zero_prompt_embedding toy_elo (λ _ _, mret [Fin 0; Fin 0]) "hello"
           toy_router tt tt [Fin 0; Fin 0] [[1; 0]; [0; 1]]%R eq_refl
           ltac:(repeat constructor) eq_refl _ _ Hrun).
Defined.
